(** * Bulk student import: CSV duplicate precheck and Smart Import engine

    A shallow embedding of

    - [services/csvService.js]: [parseCSV], [validateRecord],
      [validateRecords], [parseAndValidateCSV], [detectInternalDuplicates];
    - [services/bulkImportService.js]: [detectDatabaseDuplicates],
      [generateEmailWithSuffix], [findAvailableEmail], [processRecord],
      [processBulkImport];
    - [controllers/studentController.js]: [createStudent],
      [enrollStudent], [validateCSV], [bulkImport];
    - [services/authService.js] and the two middlewares of the routes;
    - the [users] and [students] tables as [models/User.js],
      [models/Student.js] and the migrations declare them, and the
      associations [models/index.js] registers.

    JavaScript [Map]s keyed by strings are [gmap string _]; the database
    is a pair of row lists threaded explicitly through every call;
    [await]ed calls that may reject return a sum.  What the libraries
    compute ([String.prototype.toLowerCase], the validators of
    Sequelize, the Joi schema) is taken as given: the statements hold
    for every such function. *)

From Stdlib Require Import Ascii String.
From stdpp Require Import base option list sorting strings pretty gmap.

(** ** Strings *)

Module JsString.

(** [String.prototype.toLowerCase] is ECMAScript's, over all of
    Unicode. *)
Class Lowering := {
  toLowerCase : string → string
}.

(** On a string of ASCII characters it lowers the letters [A] to [Z];
    the examples run on such strings. *)
Definition lowerChar (c : ascii) : ascii :=
  let n := nat_of_ascii c in
  if (65 <=? n)%nat && (n <=? 90)%nat then ascii_of_nat (n + 32) else c.

Fixpoint lowerAscii (s : string) : string :=
  match s with
  | EmptyString => EmptyString
  | String c s' => String (lowerChar c) (lowerAscii s')
  end.

(** [s.split(sep)] for a one-character separator: the pieces of [s]
    between the occurrences of [sep]; never empty. *)
Fixpoint split (sep : ascii) (s : string) : list string :=
  match s with
  | EmptyString => [EmptyString]
  | String c s' =>
      if Ascii.eqb c sep then EmptyString :: split sep s'
      else match split sep s' with
           | [] => [String c EmptyString]
           | piece :: pieces => String c piece :: pieces
           end
  end.

(** Whether [c] occurs in [s]. *)
Fixpoint contains (c : ascii) (s : string) : bool :=
  match s with
  | EmptyString => false
  | String c' s' => Ascii.eqb c' c || contains c s'
  end.

End JsString.

(** ** Rows of the CSV file

    A record as [validateRecords] hands it on: the validated fields and
    the [_rowNumber] given by the parser.  An optional column that is
    missing is [None]. *)

Record CsvRecord := {
  r_name : string;
  r_email : string;
  r_student_code : string;
  r_phone : option string;
  r_password : option string;
  r_rowNumber : nat
}.

(** JavaScript's [x || d] on an optional string: [undefined], [null] and
    the empty string are falsy. *)
Definition or_else (x : option string) (d : option string) : option string :=
  match x with
  | Some EmptyString | None => d
  | Some _ => x
  end.

(** ** csvService.detectInternalDuplicates *)

Module CsvService.

Inductive Field := field_email | field_student_code.

Record Duplicate := {
  dup_rowNumber : nat;
  dup_field : Field;
  dup_value : string;
  duplicateOf : nat
}.

Record DuplicateReport := {
  hasDuplicates : bool;
  duplicates : list Duplicate;
  duplicateCount : nat
}.

(** The state of the [forEach]: the two maps and the list pushed to. *)
Record Scan := {
  emailMap : gmap string nat;
  studentCodeMap : gmap string nat;
  found : list Duplicate
}.

Section Scanning.
Context {lowering : JsString.Lowering}.

Definition scanRecord (st : Scan) (record : CsvRecord) : Scan :=
  let email := JsString.toLowerCase (r_email record) in
  let studentCode := r_student_code record in
  let rowNumber := r_rowNumber record in
  let '(emailMap1, found1) :=
    match emailMap st !! email with
    | Some first =>
        (emailMap st,
         found st ++ [{| dup_rowNumber := rowNumber; dup_field := field_email;
                         dup_value := r_email record; duplicateOf := first |}])
    | None => (<[email := rowNumber]> (emailMap st), found st)
    end in
  let '(codeMap1, found2) :=
    match studentCodeMap st !! studentCode with
    | Some first =>
        (studentCodeMap st,
         found1 ++ [{| dup_rowNumber := rowNumber; dup_field := field_student_code;
                       dup_value := studentCode; duplicateOf := first |}])
    | None => (<[studentCode := rowNumber]> (studentCodeMap st), found1)
    end in
  {| emailMap := emailMap1; studentCodeMap := codeMap1; found := found2 |}.

Definition detectInternalDuplicates (records : list CsvRecord) : DuplicateReport :=
  let st := foldl scanRecord {| emailMap := ∅; studentCodeMap := ∅; found := [] |} records in
  {| hasDuplicates := negb (Nat.eqb (length (found st)) 0);
     duplicates := found st;
     duplicateCount := length (found st) |}.

End Scanning.

End CsvService.

(** ** The persistent store

    The two tables the engine touches, in PostgreSQL
    ([config/database.js]): text columns compare by their stored
    characters, in [=], in [IN] and in unique indexes alike.  [id]s stand
    for the UUIDs the models default to: a new row gets an id no row of
    its table has.  A password hash is kept symbolically, as the call
    that produced it.  The columns the import never names ([avatar_url],
    [notification_preferences], the timestamps Sequelize keeps) are left
    out.  One import runs at a time and no other writer is at work: the
    store changes only through the statements below. *)

Inductive PasswordHash := bcrypt_hash (password : string) (saltRounds : nat).

Record User := {
  u_id : nat;
  u_email : string;
  u_name : string;
  u_password_hash : PasswordHash;
  u_role : string
}.

Record Student := {
  s_id : nat;
  s_user_id : nat;
  s_student_code : string;
  s_phone : option string
}.

Record Database := {
  users : list User;
  students : list Student
}.

Global Instance PasswordHash_eq_dec : EqDecision PasswordHash.
Proof. solve_decision. Defined.
Global Instance User_eq_dec : EqDecision User.
Proof. solve_decision. Defined.
Global Instance Student_eq_dec : EqDecision Student.
Proof. solve_decision. Defined.

(** ** Rejections

    What an awaited call rejects with: an [Error] the code itself
    throws, with its message, or an error of Sequelize.  The texts of
    the library's messages are not modelled; an error of the library
    stands for its message.

    - [SequelizeEagerLoadingError]: an [include] names an association
      that is not registered; the query is never sent.
    - [SequelizeValidationError]: validators of the model refused the
      values, each a field and the validator that failed; the statement
      is never sent.
    - [SequelizeUniqueConstraintError],
      [SequelizeForeignKeyConstraintError], [SequelizeDatabaseError]:
      PostgreSQL refused the statement (SQLSTATE 23505, 23503, and the
      code kept for the others: 22001, a value too long for its column;
      25P02, a statement in a transaction that is aborted).
    - [rollback_of_finished_transaction]: [transaction.rollback()]
      after [commit()]. *)

Inductive Error :=
| new_Error (message : string)
| SequelizeEagerLoadingError (target alias : string)
| SequelizeValidationError (failed : list (string * string))
| SequelizeUniqueConstraintError (field : string)
| SequelizeForeignKeyConstraintError (field : string)
| SequelizeDatabaseError (sqlstate : string)
| rollback_of_finished_transaction.

(** The errors that come from the database. *)
Definition refused_by_database (e : Error) : bool :=
  match e with
  | SequelizeUniqueConstraintError _
  | SequelizeForeignKeyConstraintError _
  | SequelizeDatabaseError _ => true
  | _ => false
  end.

(** [error.message]. *)
Inductive Message :=
| text (s : string)
| message_of (e : Error).

Definition error_message (e : Error) : Message :=
  match e with
  | new_Error message => text message
  | _ => message_of e
  end.

(** The validators the models name ([isEmail] on [users.email],
    [notEmpty] on [users.name] and [students.student_code]): Sequelize
    runs them on the values before it sends an [INSERT] or an
    [UPDATE]. *)
Class Validators := {
  isEmail : string → bool;
  notEmpty : string → bool
}.

(** A statement run on the store: it answers with a value or rejects,
    and leaves a store behind.  A statement that rejects leaves the
    store as it found it. *)
Definition Stmt (A : Type) : Type := Database → (Error + A) * Database.

Module Db.

Definition fresh (ids : list nat) : nat := S (foldr Nat.max 0 ids).

(** [DataTypes.STRING(n)] is [VARCHAR(n)]: a value of more than [n]
    characters is refused by the database.  A [string] is the sequence
    of its characters, and [String.length] their number. *)
Definition fits (n : nat) (value : string) : bool := (String.length value <=? n)%nat.

Definition fits_or_null (n : nat) (value : option string) : bool :=
  match value with
  | Some value => fits n value
  | None => true
  end.

(** The associations [models/index.js] registers from [User] and from
    [Student]: source, target and alias ([as]). *)
Definition associations : list (string * string * string) :=
  [ ("User", "Student", "studentProfile");
    ("User", "Course", "courses");
    ("User", "Question", "questions");
    ("User", "ForumThread", "forumThreads");
    ("User", "ForumReply", "forumReplies");
    ("User", "ChatMessage", "sentMessages");
    ("User", "Notification", "notifications");
    ("Student", "User", "user");
    ("Student", "Course", "enrolledCourses");
    ("Student", "Group", "groups");
    ("Student", "AssignmentSubmission", "submissions");
    ("Student", "QuizAttempt", "quizAttempts") ].

(** An [include: [{ model, as }]] of a query on [source]: Sequelize
    looks the association up by its alias before it builds the query,
    and rejects when [source] has none under that alias. *)
Definition included (source target alias : string) : Error + unit :=
  if bool_decide ((source, target, alias) ∈ associations) then inr ()
  else inl (SequelizeEagerLoadingError target alias).

(** [User.findOne({ where: { email } })]: the comparison is the
    database's, on the stored text. *)
Definition User_findOne (db : Database) (email : string) : option User :=
  List.find (λ u, bool_decide (u_email u = email)) (users db).

(** The rows the two joins add: the profile of an account (on
    [students.user_id]) and the account of a profile. *)
Definition student_of (db : Database) (u : User) : option Student :=
  List.find (λ s, bool_decide (s_user_id s = u_id u)) (students db).
Definition user_of (db : Database) (s : Student) : option User :=
  List.find (λ u, bool_decide (u_id u = s_user_id s)) (users db).

(** [User.findAll({ where: { email: { [Op.in]: emails } }, include:
    [{ model: Student, as: 'student', required: false }] })]. *)
Definition User_findAll_email_in (db : Database) (emails : list string)
  : Error + list (User * option Student) :=
  match included "User" "Student" "student" with
  | inl e => inl e
  | inr _ =>
      inr ((λ u, (u, student_of db u)) <$> filter (λ u, u_email u ∈ emails) (users db))
  end.

(** [Student.findAll({ where: { student_code: { [Op.in]: codes } },
    include: [{ model: User, as: 'user', required: true }] })]: an
    inner join. *)
Definition Student_findAll_code_in (db : Database) (codes : list string)
  : Error + list (Student * User) :=
  match included "Student" "User" "user" with
  | inl e => inl e
  | inr _ =>
      inr (omap (λ s, if decide (s_student_code s ∈ codes)
                      then (λ u, (s, u)) <$> user_of db s else None) (students db))
  end.

Section Statements.
Context {validators : Validators}.

(** What the validators of [User] refuse of a new account, in the
    order of the attributes. *)
Definition User_validate (email name role : string) : list (string * string) :=
  (if isEmail email then [] else [("email", "isEmail")])
  ++ (if notEmpty name then [] else [("name", "notEmpty")])
  ++ (if bool_decide (role ∈ ["instructor"; "student"]) then [] else [("role", "isIn")]).

(** [User.create]: the validators, then the [INSERT]: [email] and
    [name] are [STRING(255)], [email] is unique. *)
Definition User_create (email name : string) (password_hash : PasswordHash)
    (role : string) : Stmt User := λ db,
  match User_validate email name role with
  | (_ :: _) as failed => (inl (SequelizeValidationError failed), db)
  | [] =>
      if negb (fits 255 email && fits 255 name)
      then (inl (SequelizeDatabaseError "22001"), db)
      else if decide (email ∈ u_email <$> users db)
      then (inl (SequelizeUniqueConstraintError "email"), db)
      else
        let user := {| u_id := fresh (u_id <$> users db); u_email := email;
                       u_name := name; u_password_hash := password_hash;
                       u_role := role |} in
        (inr user, {| users := users db ++ [user]; students := students db |})
  end.

(** [Student.create]: the validator of [student_code], then the
    [INSERT]: [student_code] is [STRING(50)] and [phone] [STRING(20)],
    [user_id] and [student_code] are unique, [user_id] references
    [users.id]. *)
Definition Student_create (user_id : nat) (student_code : string)
    (phone : option string) : Stmt Student := λ db,
  if negb (notEmpty student_code)
  then (inl (SequelizeValidationError [("student_code", "notEmpty")]), db)
  else if negb (fits 50 student_code && fits_or_null 20 phone)
  then (inl (SequelizeDatabaseError "22001"), db)
  else if decide (user_id ∈ s_user_id <$> students db)
  then (inl (SequelizeUniqueConstraintError "user_id"), db)
  else if decide (student_code ∈ s_student_code <$> students db)
  then (inl (SequelizeUniqueConstraintError "student_code"), db)
  else if decide (user_id ∉ u_id <$> users db)
  then (inl (SequelizeForeignKeyConstraintError "user_id"), db)
  else
    let student := {| s_id := fresh (s_id <$> students db); s_user_id := user_id;
                      s_student_code := student_code; s_phone := phone |} in
    (inr student, {| users := users db; students := students db ++ [student] |}).

(** [user.update({ name })]: the validator of [name]; then, when the
    name differs from the one the instance holds, the [UPDATE] of the
    one column of the row with the id of the instance (Sequelize sends
    no query for an instance nothing of which has changed).  It answers
    with the instance as it now reads. *)
Definition User_update_name (user : User) (name : string) : Stmt User := λ db,
  let rename u := {| u_id := u_id u; u_email := u_email u; u_name := name;
                     u_password_hash := u_password_hash u; u_role := u_role u |} in
  if negb (notEmpty name)
  then (inl (SequelizeValidationError [("name", "notEmpty")]), db)
  else if decide (name = u_name user)
  then (inr user, db)
  else if negb (fits 255 name)
  then (inl (SequelizeDatabaseError "22001"), db)
  else
    (inr (rename user),
     {| users := (λ u, if decide (u_id u = u_id user) then rename u else u) <$> users db;
        students := students db |}).

End Statements.

(** [student.update({ phone })]: [phone] has no validator; the
    [UPDATE] is sent when the phone differs from the one the instance
    holds. *)
Definition Student_update_phone (student : Student) (phone : option string)
  : Stmt Student := λ db,
  let rephone s := {| s_id := s_id s; s_user_id := s_user_id s;
                      s_student_code := s_student_code s; s_phone := phone |} in
  if decide (phone = s_phone student)
  then (inr student, db)
  else if negb (fits_or_null 20 phone)
  then (inl (SequelizeDatabaseError "22001"), db)
  else
    (inr (rephone student),
     {| users := users db;
        students := (λ s, if decide (s_id s = s_id student) then rephone s else s)
                      <$> students db |}).

(** [user.destroy()]; [students.user_id] is declared ON DELETE CASCADE
    ([migrations/create-students]). *)
Definition User_destroy (user : User) : Stmt unit := λ db,
  (inr tt,
   {| users := filter (λ u, u_id u ≠ u_id user) (users db);
      students := filter (λ s, s_user_id s ≠ u_id user) (students db) |}).

(** [sequelize.transaction()]: the statements given the transaction
    work on [tx_working]; a query given none reads [tx_committed].  A
    statement that PostgreSQL refuses aborts the transaction: it refuses
    every later statement, and its [COMMIT] rolls back.  An error raised
    before a statement is sent (a validator, an [Error] of the code)
    leaves the transaction as it is. *)
Record Transaction := {
  tx_committed : Database;
  tx_working : Database;
  tx_aborted : bool
}.

Definition transaction (db : Database) : Transaction :=
  {| tx_committed := db; tx_working := db; tx_aborted := false |}.

(** The store after [transaction.commit()] and after
    [transaction.rollback()]. *)
Definition commit (t : Transaction) : Database :=
  if tx_aborted t then tx_committed t else tx_working t.
Definition rollback (t : Transaction) : Database := tx_committed t.

(** The calls awaited one after the other while a transaction is open:
    a rejection leaves the sequence. *)
Definition Tx (A : Type) : Type := Transaction → (Error + A) * Transaction.

Global Instance Tx_ret : MRet Tx := λ A a t, (inr a, t).
Global Instance Tx_bind : MBind Tx := λ A B f m t,
  match m t with
  | (inl e, t') => (inl e, t')
  | (inr a, t') => f a t'
  end.

(** A statement given [{ transaction }]. *)
Definition within {A} (statement : Stmt A) : Tx A := λ t,
  if tx_aborted t then (inl (SequelizeDatabaseError "25P02"), t)
  else
    match statement (tx_working t) with
    | (inr a, db) =>
        (inr a, {| tx_committed := tx_committed t; tx_working := db;
                   tx_aborted := false |})
    | (inl e, _) =>
        (inl e, {| tx_committed := tx_committed t; tx_working := tx_working t;
                   tx_aborted := refused_by_database e |})
    end.

(** A call given no transaction. *)
Definition outside {A} (call : Database → Error + A) : Tx A := λ t,
  (call (tx_committed t), t).

End Db.
(** ** bulkImportService *)

Module Status.
(** The [status] strings of a processing result. *)
Inductive t := created | created_with_suffix | updated | skipped | error.

Global Instance eq_dec : EqDecision t.
Proof. solve_decision. Defined.
End Status.

Module BulkImportService.
Import Db.

(** [DUPLICATE_STRATEGIES]; the controller's schema and the check at the
    head of [processBulkImport] let no other value through. *)
Inductive Strategy := SKIP | UPDATE | SUFFIX.

Definition BATCH_SIZE : nat := 100.

(** A value of the two lookup maps: [{ user, student }]. *)
Record Existing := {
  ex_user : User;
  ex_student : option Student
}.

Record DuplicateInfo := {
  emailMap : gmap string Existing;
  studentCodeMap : gmap string Existing
}.

(** [const [localPart, domain] = email.split('@')]: a missing piece is
    [undefined] and prints as such in the template. *)
Definition generateEmailWithSuffix (email : string) (suffix : nat) : string :=
  let parts := JsString.split "@" email in
  let localPart := default "undefined" (parts !! 0%nat) in
  let domain := default "undefined" (parts !! 1%nat) in
  localPart +:+ "_" +:+ pretty suffix +:+ "@" +:+ domain.

(** What one run of the [while (true)] loop can come to. *)
Inductive Outcome := Returned (email : string) | Thrown (message : string) | OutOfFuel.

Fixpoint findAvailableEmail_loop (fuel : nat) (db : Database)
    (originalEmail : string) (suffix : nat) (email : string) : Outcome :=
  match fuel with
  | O => OutOfFuel
  | S fuel =>
      match User_findOne db email with
      | None => Returned email
      | Some _ =>
          let suffix := S suffix in
          let email := generateEmailWithSuffix originalEmail suffix in
          if (1000 <? suffix)%nat
          then Thrown ("Could not find available email for " +:+ originalEmail)
          else findAvailableEmail_loop fuel db originalEmail suffix email
      end
  end.

(** The loop leaves by [return] or by [throw] within 1000 rounds
    ([findAvailableEmail_loop_fuel] below), so the last case is never
    taken. *)
Definition findAvailableEmail (db : Database) (originalEmail : string)
  : string + string :=
  match findAvailableEmail_loop 1000 db originalEmail 1
          (generateEmailWithSuffix originalEmail 1) with
  | Returned email => inr email
  | Thrown message => inl message
  | OutOfFuel => inl "unreachable"
  end.

(** The [record] object of a result; a key the branch does not set is
    [None]. *)
Record ResultRecord := {
  rec_email : string;
  rec_original_email : option string;
  rec_name : option string;
  rec_student_code : string;
  rec_phone : option string
}.

Record ProcessResult := {
  status : Status.t;
  record : ResultRecord;
  message : Message
}.

Definition brief (record : CsvRecord) : ResultRecord :=
  {| rec_email := r_email record; rec_original_email := None; rec_name := None;
     rec_student_code := r_student_code record; rec_phone := None |}.

Definition full (user : User) (student : Student) (original : option string)
  : ResultRecord :=
  {| rec_email := u_email user; rec_original_email := original;
     rec_name := Some (u_name user);
     rec_student_code := s_student_code student; rec_phone := s_phone student |}.

Record Detail := {
  rowNumber : nat;
  result : ProcessResult
}.

Record ImportResults := {
  total : nat;
  created : nat;
  updated : nat;
  skipped : nat;
  failed : nat;
  details : list Detail
}.

(** [result.status === s]. *)
Definition has_status (result : ProcessResult) (s : Status.t) : bool :=
  bool_decide (status result = s).

(** The counter updates and the [details.push] of one row. *)
Definition tally (results : ImportResults) (record : CsvRecord)
    (result : ProcessResult) : ImportResults :=
  let count (hit : bool) (n : nat) : nat := if hit then S n else n in
  {| total := total results;
     created := count (has_status result Status.created
                       || has_status result Status.created_with_suffix)
                      (created results);
     updated := count (has_status result Status.updated) (updated results);
     skipped := count (has_status result Status.skipped) (skipped results);
     failed := count (has_status result Status.error) (failed results);
     details := details results
                  ++ [{| rowNumber := r_rowNumber record; result := result |}] |}.

(** The slices [records.slice(i, i + BATCH_SIZE)] the outer [for]
    visits, [i = 0, BATCH_SIZE, ...]; [fuel] bounds their number. *)
Fixpoint slices (fuel : nat) (records : list CsvRecord) : list (list CsvRecord) :=
  match fuel, records with
  | S fuel, _ :: _ =>
      take BATCH_SIZE records :: slices fuel (drop BATCH_SIZE records)
  | _, _ => []
  end.

Section Engine.
Context {lowering : JsString.Lowering} {validators : Validators}.

(** [detectDatabaseDuplicates]: the two queries, awaited one after the
    other, and the two maps built from their rows. *)
Definition detectDatabaseDuplicates (db : Database) (records : list CsvRecord)
  : Error + DuplicateInfo :=
  let emails := (λ r, JsString.toLowerCase (r_email r)) <$> records in
  let studentCodes := r_student_code <$> records in
  match User_findAll_email_in db emails with
  | inl e => inl e
  | inr existingUsers =>
      match Student_findAll_code_in db studentCodes with
      | inl e => inl e
      | inr existingStudents =>
          inr {| emailMap :=
                   foldl (λ m '(user, student),
                            <[JsString.toLowerCase (u_email user) :=
                                {| ex_user := user; ex_student := student |}]> m)
                         ∅ existingUsers;
                 studentCodeMap :=
                   foldl (λ m '(student, user),
                            <[s_student_code student :=
                                {| ex_user := user; ex_student := Some student |}]> m)
                         ∅ existingStudents |}
      end
  end.

(** [await findAvailableEmail(record.email)]: its queries are given no
    transaction. *)
Definition findAvailableEmail_call (originalEmail : string) : Tx string :=
  outside (λ db, match findAvailableEmail db originalEmail with
                 | inl message => inl (new_Error message)
                 | inr email => inr email
                 end).

(** The body of the [try] of [processRecord]. *)
Definition processRecord_try (record : CsvRecord) (duplicateInfo : DuplicateInfo)
    (strategy : Strategy) : Tx ProcessResult :=
  let email := JsString.toLowerCase (r_email record) in
  let studentCode := r_student_code record in
  let existingByEmail := emailMap duplicateInfo !! email in
  let existingByCode := studentCodeMap duplicateInfo !! studentCode in
  let isDuplicateEmail := bool_decide (is_Some existingByEmail) in
  let isDuplicateCode := bool_decide (is_Some existingByCode) in
  if negb isDuplicateEmail && negb isDuplicateCode then
    let password := default "student123" (or_else (r_password record) None) in
    let password_hash := bcrypt_hash password 10 in
    user ← within (User_create (r_email record) (r_name record) password_hash "student");
    student ← within (Student_create (u_id user) (r_student_code record)
                        (or_else (r_phone record) None));
    mret {| status := Status.created; record := full user student None;
            message := text "Student created successfully" |}
  else
    match strategy with
    | SKIP =>
        mret {| status := Status.skipped; record := brief record;
                message := text (if isDuplicateEmail then "Email already exists"
                                 else "Student code already exists") |}
    | UPDATE =>
        match existingByEmail with
        | Some {| ex_user := user; ex_student := Some student |} =>
            user ← within (User_update_name user (r_name record));
            student ← within (Student_update_phone student
                                (or_else (r_phone record) (s_phone student)));
            mret {| status := Status.updated; record := full user student None;
                    message := text "Student updated successfully" |}
        | _ =>
            mret {| status := Status.skipped; record := brief record;
                    message := text "Email and student code mismatch - cannot update" |}
        end
    | SUFFIX =>
        if isDuplicateEmail then
          newEmail ← findAvailableEmail_call (r_email record);
          let password := default "student123" (or_else (r_password record) None) in
          let password_hash := bcrypt_hash password 10 in
          user ← within (User_create newEmail (r_name record) password_hash "student");
          if isDuplicateCode then
            _ ← within (User_destroy user);
            mret {| status := Status.skipped; record := brief record;
                    message :=
                      text "Student code already exists - cannot create with suffix" |}
          else
            student ← within (Student_create (u_id user) (r_student_code record)
                                (or_else (r_phone record) None));
            mret {| status := Status.created_with_suffix;
                    record := full user student (Some (r_email record));
                    message := text ("Student created with email suffix: " +:+ newEmail) |}
        else
          mret {| status := Status.skipped; record := brief record;
                  message := text "Student code already exists" |}
    end.

(** [processRecord]: the [catch] turns a rejection into an ['error']
    result; the transaction stays with the caller, neither committed nor
    rolled back. *)
Definition processRecord (record : CsvRecord) (duplicateInfo : DuplicateInfo)
    (strategy : Strategy) (transaction : Transaction) : ProcessResult * Transaction :=
  match processRecord_try record duplicateInfo strategy transaction with
  | (inr result, transaction) => (result, transaction)
  | (inl e, transaction) =>
      ({| status := Status.error; record := brief record;
          message := error_message e |},
       transaction)
  end.

(** The body of the inner [for] of [processBulkImport] at row [j]:
    [record] is [batch[j]] and [remainingRecords] is [batch.slice(j + 1)].
    It answers with the index and the counters the next row starts from.
    [processRecord] and [commit] do not reject; the refresh of the index
    does, inside the [try] and after the commit, and the [rollback] of
    the [catch] then rejects in its turn, which ends the import. *)
Definition processRow (strategy : Strategy) (record : CsvRecord)
    (remainingRecords : list CsvRecord) (duplicateInfo : DuplicateInfo)
    (db : Database) (results : ImportResults)
  : (Error + DuplicateInfo * ImportResults) * Database :=
  let transaction := transaction db in
  let '(result, transaction) :=
    processRecord record duplicateInfo strategy transaction in
  let db := commit transaction in
  if has_status result Status.created
     || has_status result Status.created_with_suffix
  then match remainingRecords with
       | [] => (inr (duplicateInfo, tally results record result), db)
       | _ :: _ =>
           match detectDatabaseDuplicates db remainingRecords with
           | inr duplicateInfo => (inr (duplicateInfo, tally results record result), db)
           | inl _ => (inl rollback_of_finished_transaction, db)
           end
       end
  else (inr (duplicateInfo, tally results record result), db).

(** The inner [for], from row [j] on: [batch] is [batch.slice(j)]. *)
Fixpoint processBatch (strategy : Strategy) (batch : list CsvRecord)
    (duplicateInfo : DuplicateInfo) (db : Database) (results : ImportResults)
  : (Error + ImportResults) * Database :=
  match batch with
  | [] => (inr results, db)
  | record :: remainingRecords =>
      match processRow strategy record remainingRecords duplicateInfo db results with
      | (inl e, db) => (inl e, db)
      | (inr (duplicateInfo, results), db) =>
          processBatch strategy remainingRecords duplicateInfo db results
      end
  end.

(** The outer [for], over the slices still to visit: the index of a
    slice is asked for outside every [try]. *)
Fixpoint processBatches (strategy : Strategy) (batches : list (list CsvRecord))
    (db : Database) (results : ImportResults) : (Error + ImportResults) * Database :=
  match batches with
  | [] => (inr results, db)
  | batch :: batches =>
      match detectDatabaseDuplicates db batch with
      | inl e => (inl e, db)
      | inr duplicateInfo =>
          match processBatch strategy batch duplicateInfo db results with
          | (inl e, db) => (inl e, db)
          | (inr results, db) => processBatches strategy batches db results
          end
      end
  end.

(** [processBulkImport]: what the call resolves to or rejects with, and
    the store it leaves. *)
Definition processBulkImport (db : Database) (records : list CsvRecord)
    (strategy : Strategy) : (Error + ImportResults) * Database :=
  processBatches strategy (slices (length records) records) db
    {| total := length records; created := 0; updated := 0;
       skipped := 0; failed := 0; details := [] |}.

End Engine.

End BulkImportService.

(** ** studentController.bulkImport, from the validated rows on *)

Module StudentController.
Import BulkImportService.

(** What the handler answers: an [ApiError] it throws, the rejection of
    a call it awaits, or the summary it sends with status 200. *)
Inductive Response :=
| ApiError (statusCode : nat) (code : string) (found : list CsvService.Duplicate)
| Rejected (e : Error)
| Ok (importResults : ImportResults).

Section Handler.
Context {lowering : JsString.Lowering} {validators : Validators}.

Definition bulkImport (db : Database) (validRecords : list CsvRecord)
    (strategy : Strategy) : Database * Response :=
  if Nat.eqb (length validRecords) 0
  then (db, ApiError 400 "NO_VALID_RECORDS" [])
  else
    let internalDuplicates := CsvService.detectInternalDuplicates validRecords in
    if CsvService.hasDuplicates internalDuplicates
    then (db, ApiError 400 "INTERNAL_DUPLICATES"
                (CsvService.duplicates internalDuplicates))
    else
      match processBulkImport db validRecords strategy with
      | (inr importResults, db) => (db, Ok importResults)
      | (inl e, db) => (db, Rejected e)
      end.

End Handler.

End StudentController.

(** ** The precheck as the specification words it

    A row is an internal duplicate in a field when the field's key (the
    lowercased email, the student code) occurred in an earlier row; the
    report names the first such row. *)

Module InternalDuplicateSpec.
Import CsvService.

Section Spec.
Context {lowering : JsString.Lowering}.

Definition normalizedEmail (r : CsvRecord) : string := JsString.toLowerCase (r_email r).

(** The row number of the first of [earlier] with the key of [r]. *)
Definition firstSeenAt (key : CsvRecord → string) (earlier : list CsvRecord)
    (r : CsvRecord) : option nat :=
  r_rowNumber <$> List.find (λ r', bool_decide (key r' = key r)) earlier.

Definition duplicatesOfRow (earlier : list CsvRecord) (r : CsvRecord) : list Duplicate :=
  match firstSeenAt normalizedEmail earlier r with
  | Some first => [{| dup_rowNumber := r_rowNumber r; dup_field := field_email;
                      dup_value := r_email r; duplicateOf := first |}]
  | None => []
  end ++
  match firstSeenAt r_student_code earlier r with
  | Some first => [{| dup_rowNumber := r_rowNumber r; dup_field := field_student_code;
                      dup_value := r_student_code r; duplicateOf := first |}]
  | None => []
  end.

(** The expected report for [records] coming after the rows [earlier]. *)
Fixpoint expectedDuplicates (earlier records : list CsvRecord) : list Duplicate :=
  match records with
  | [] => []
  | r :: rest => duplicatesOfRow earlier r ++ expectedDuplicates (earlier ++ [r]) rest
  end.

(** What a map of the scan holds after the rows [earlier]: for each key
    the number of the first row that has it. *)
Definition firstRows (key : CsvRecord → string) (earlier : list CsvRecord)
    (m : gmap string nat) : Prop :=
  ∀ k, m !! k = r_rowNumber <$> List.find (λ r', bool_decide (key r' = k)) earlier.

Definition scanned (earlier : list CsvRecord) (st : Scan) : Prop :=
  firstRows normalizedEmail earlier (emailMap st)
  ∧ firstRows r_student_code earlier (studentCodeMap st).

End Spec.

End InternalDuplicateSpec.

(** ** Consistency of the store

    What the schema keeps true of every state.  The foreign key: a
    student row belongs to a user row. *)

Definition fk_ok (db : Database) : Prop :=
  ∀ s, s ∈ students db → s_user_id s ∈ u_id <$> users db.

(** And its primary keys: no two rows of a table share an id. *)
Definition pk_ok (db : Database) : Prop :=
  NoDup (u_id <$> users db) ∧ NoDup (s_id <$> students db).

Definition consistent (db : Database) : Prop := pk_ok db ∧ fk_ok db.

(** ** What a row asks of the two models

    The values [User.create] and [Student.create] are given for a row
    pass the validators and fit the columns. *)

Module Accepted.
Import Db.

Section Accepted.
Context {validators : Validators}.

Definition account (email name : string) : bool :=
  isEmail email && notEmpty name && fits 255 email && fits 255 name.

Definition profile (student_code : string) (phone : option string) : bool :=
  notEmpty student_code && fits 50 student_code && fits_or_null 20 phone.

End Accepted.

End Accepted.

(** ** Sample data *)

Module Sample.
Import Db BulkImportService.

(** The lowering of the examples, whose strings are ASCII. *)
Definition lowering : JsString.Lowering :=
  {| JsString.toLowerCase := JsString.lowerAscii |}.

(** Stand-ins for the two validators, enough for the examples: an
    address has one [@], a local part of 1 to 64 characters and a dot in
    its domain; a value is empty when it has blanks only. *)
Definition address (s : string) : bool :=
  match JsString.split "@" s with
  | [localPart; domain] =>
      (1 <=? String.length localPart)%nat && (String.length localPart <=? 64)%nat
      && JsString.contains "." domain
  | _ => false
  end.

Fixpoint blank (s : string) : bool :=
  match s with
  | EmptyString => true
  | String c s' =>
      ((nat_of_ascii c =? 32)%nat
       || ((9 <=? nat_of_ascii c)%nat && (nat_of_ascii c <=? 13)%nat))
      && blank s'
  end.

Definition validators : Validators :=
  {| isEmail := address; notEmpty := λ s, negb (blank s) |}.

Definition row (name email student_code : string) (rowNumber : nat) : CsvRecord :=
  {| r_name := name; r_email := email; r_student_code := student_code;
     r_phone := None; r_password := None; r_rowNumber := rowNumber |}.

Definition account (id : nat) (email name : string) : User :=
  {| u_id := id; u_email := email; u_name := name;
     u_password_hash := bcrypt_hash "student123" 10; u_role := "student" |}.

Definition profile (id user_id : nat) (student_code : string) : Student :=
  {| s_id := id; s_user_id := user_id; s_student_code := student_code;
     s_phone := None |}.

Definition empty : Database := {| users := []; students := [] |}.

(** John, [j@x.com], code [S1]. *)
Definition john : Database :=
  {| users := [account 1 "j@x.com" "John"]; students := [profile 1 1 "S1"] |}.

(** John, and an account that already holds [j_1@x.com]. *)
Definition john_and_j1 : Database :=
  {| users := [account 1 "j@x.com" "John"; account 2 "j_1@x.com" "Jo"];
     students := [profile 1 1 "S1"; profile 2 2 "S0"] |}.

(** An account [a@x.com] with code [S1], and every variant [a_1@x.com],
    ..., [a_1000@x.com] taken. *)
Definition crowded : Database :=
  {| users := account 0 "a@x.com" "Ann"
              :: ((λ n, account n (generateEmailWithSuffix "a@x.com" n) "Ann") <$> seq 1 1000);
     students := [profile 1 0 "S1"] |}.

(** An index as a caller of [processRecord] hands it over: no entry at
    all, and the entries of an account and its profile, under the
    address in small letters and under the code. *)
Definition no_index : DuplicateInfo := {| emailMap := ∅; studentCodeMap := ∅ |}.

Definition index_of (user : User) (student : Student) : DuplicateInfo :=
  let existing := {| ex_user := user; ex_student := Some student |} in
  {| emailMap := {[ JsString.lowerAscii (u_email user) := existing ]};
     studentCodeMap := {[ s_student_code student := existing ]} |}.

Definition john_index : DuplicateInfo :=
  index_of (account 1 "j@x.com" "John") (profile 1 1 "S1").

Definition ann_index : DuplicateInfo :=
  index_of (account 0 "a@x.com" "Ann") (profile 1 0 "S1").

Definition john_row : CsvRecord := row "John" "j@x.com" "S1" 1.
Definition jane_row : CsvRecord := row "Jane" "j@x.com" "S2" 2.

(** Jane with John's address and John's code. *)
Definition jane_as_john : CsvRecord := row "Jane" "j@x.com" "S1" 1.

(** Jane with a new address and John's code. *)
Definition jane_with_code_of_john : CsvRecord := row "Jane" "jane@x.com" "S1" 1.

(** John with a new name and phone. *)
Definition john_update : CsvRecord :=
  {| r_name := "John Updated"; r_email := "j@x.com"; r_student_code := "S1";
     r_phone := Some "999"; r_password := None; r_rowNumber := 1 |}.


(** Lee, whose address has a local part of 63 characters: the local
    part of its first variant has 65. *)
Definition lee_address : string :=
  string_of_list_ascii (replicate 63 "a"%char) +:+ "@x.com".

Definition lee : Database :=
  {| users := [account 1 lee_address "Lee"]; students := [profile 1 1 "S1"] |}.

Definition lee_index : DuplicateInfo :=
  index_of (account 1 lee_address "Lee") (profile 1 1 "S1").

Definition lee_row : CsvRecord := row "Lee" lee_address "S1" 1.

(** Ann, whose address and code the crowded store holds. *)
Definition ann_row : CsvRecord := row "Ann" "a@x.com" "S1" 1.

End Sample.
(** ** The outcomes of one row, case by case

    [RowOutcome row duplicateInfo strategy db result transaction'] lists
    the ways through [processRecord] in a transaction that begins on
    [db]: the lookups that select the branch, the answers of the
    statements run, the result returned and the transaction as the row
    leaves it. *)

Module RowSemantics.
Import Db BulkImportService.

Section Outcome.
Context {lowering : JsString.Lowering} {validators : Validators}.
Context (row : CsvRecord) (duplicateInfo : DuplicateInfo) (strategy : Strategy)
  (db : Database).

Let byEmail := emailMap duplicateInfo !! JsString.toLowerCase (r_email row).
Let byCode := studentCodeMap duplicateInfo !! r_student_code row.
Let password_hash :=
  bcrypt_hash (default "student123" (or_else (r_password row) None)) 10.
Let error_result (e : Error) : ProcessResult :=
  {| status := Status.error; record := brief row; message := error_message e |}.
Let skipped_result (message : string) : ProcessResult :=
  {| status := Status.skipped; record := brief row; message := text message |}.
(** The transaction after statements that left [working]; after a
    statement that was rejected with [e]. *)
Let after (working : Database) : Transaction :=
  {| tx_committed := db; tx_working := working; tx_aborted := false |}.
Let after_error (working : Database) (e : Error) : Transaction :=
  {| tx_committed := db; tx_working := working; tx_aborted := refused_by_database e |}.

Inductive RowOutcome : ProcessResult → Transaction → Prop :=
| row_created user db1 student db2 :
    byEmail = None → byCode = None →
    User_create (r_email row) (r_name row) password_hash "student" db
      = (inr user, db1) →
    Student_create (u_id user) (r_student_code row) (or_else (r_phone row) None) db1
      = (inr student, db2) →
    RowOutcome {| status := Status.created; record := full user student None;
                  message := text "Student created successfully" |} (after db2)
| row_user_rejected e db1 :
    byEmail = None → byCode = None →
    User_create (r_email row) (r_name row) password_hash "student" db
      = (inl e, db1) →
    RowOutcome (error_result e) (after_error db e)
| row_student_rejected user db1 e db2 :
    byEmail = None → byCode = None →
    User_create (r_email row) (r_name row) password_hash "student" db
      = (inr user, db1) →
    Student_create (u_id user) (r_student_code row) (or_else (r_phone row) None) db1
      = (inl e, db2) →
    RowOutcome (error_result e) (after_error db1 e)
| row_skipped reason :
    is_Some byEmail ∨ is_Some byCode → strategy = SKIP →
    reason = (if bool_decide (is_Some byEmail) then "Email already exists"
              else "Student code already exists") →
    RowOutcome (skipped_result reason) (after db)
| row_updated user student user' db1 student' db2 :
    strategy = UPDATE →
    byEmail = Some {| ex_user := user; ex_student := Some student |} →
    User_update_name user (r_name row) db = (inr user', db1) →
    Student_update_phone student (or_else (r_phone row) (s_phone student)) db1
      = (inr student', db2) →
    RowOutcome {| status := Status.updated; record := full user' student' None;
                  message := text "Student updated successfully" |} (after db2)
| row_update_user_rejected user student e db1 :
    strategy = UPDATE →
    byEmail = Some {| ex_user := user; ex_student := Some student |} →
    User_update_name user (r_name row) db = (inl e, db1) →
    RowOutcome (error_result e) (after_error db e)
| row_update_student_rejected user student user' db1 e db2 :
    strategy = UPDATE →
    byEmail = Some {| ex_user := user; ex_student := Some student |} →
    User_update_name user (r_name row) db = (inr user', db1) →
    Student_update_phone student (or_else (r_phone row) (s_phone student)) db1
      = (inl e, db2) →
    RowOutcome (error_result e) (after_error db1 e)
| row_update_mismatch :
    strategy = UPDATE →
    is_Some byEmail ∨ is_Some byCode →
    (∀ user student, byEmail ≠ Some {| ex_user := user; ex_student := Some student |}) →
    RowOutcome (skipped_result "Email and student code mismatch - cannot update")
               (after db)
| row_suffix_exhausted reason :
    strategy = SUFFIX → is_Some byEmail →
    findAvailableEmail db (r_email row) = inl reason →
    RowOutcome (error_result (new_Error reason)) (after db)
| row_suffix_user_rejected newEmail e db1 :
    strategy = SUFFIX → is_Some byEmail →
    findAvailableEmail db (r_email row) = inr newEmail →
    User_create newEmail (r_name row) password_hash "student" db = (inl e, db1) →
    RowOutcome (error_result e) (after_error db e)
| row_suffix_code_collision newEmail user db1 db2 :
    strategy = SUFFIX → is_Some byEmail → is_Some byCode →
    findAvailableEmail db (r_email row) = inr newEmail →
    User_create newEmail (r_name row) password_hash "student" db = (inr user, db1) →
    User_destroy user db1 = (inr tt, db2) →
    RowOutcome (skipped_result "Student code already exists - cannot create with suffix")
               (after db2)
| row_suffix_student_rejected newEmail user db1 e db2 :
    strategy = SUFFIX → is_Some byEmail → byCode = None →
    findAvailableEmail db (r_email row) = inr newEmail →
    User_create newEmail (r_name row) password_hash "student" db = (inr user, db1) →
    Student_create (u_id user) (r_student_code row) (or_else (r_phone row) None) db1
      = (inl e, db2) →
    RowOutcome (error_result e) (after_error db1 e)
| row_created_with_suffix newEmail user db1 student db2 :
    strategy = SUFFIX → is_Some byEmail → byCode = None →
    findAvailableEmail db (r_email row) = inr newEmail →
    User_create newEmail (r_name row) password_hash "student" db = (inr user, db1) →
    Student_create (u_id user) (r_student_code row) (or_else (r_phone row) None) db1
      = (inr student, db2) →
    RowOutcome {| status := Status.created_with_suffix;
                  record := full user student (Some (r_email row));
                  message := text ("Student created with email suffix: " +:+ newEmail) |}
               (after db2)
| row_suffix_code_only :
    strategy = SUFFIX → byEmail = None → is_Some byCode →
    RowOutcome (skipped_result "Student code already exists") (after db).

End Outcome.
End RowSemantics.

(** ** csvService: reading the file

    [parseCSV] hands the text to the [csv-parser] stream and listens to
    its events.  The model starts at the events: the headers as
    [mapHeaders] has left them (trimmed and lowercased), a row as the
    object the parser emits (header to cell), an error with its message,
    and the end of the stream.  The promise is settled by the first
    [resolve] or [reject] that is called; later calls do nothing. *)

Module CsvFile.

Definition REQUIRED_COLUMNS : list string := ["name"; "email"; "student_code"].
Definition OPTIONAL_COLUMNS : list string := ["phone"; "password"].
Definition ALL_COLUMNS : list string := REQUIRED_COLUMNS ++ OPTIONAL_COLUMNS.

(** [Array.prototype.join]. *)
Fixpoint join (sep : string) (l : list string) : string :=
  match l with
  | [] => EmptyString
  | [x] => x
  | x :: l => x +:+ sep +:+ join sep l
  end.

Inductive Event :=
| on_headers (headers : list string)
| on_data (row : gmap string string)
| on_error (message : string)
| on_end.

(** A parsed row: the known columns that are defined, and [_rowNumber]. *)
Record ParsedRow := {
  fields : gmap string string;
  _rowNumber : nat
}.

Inductive Promise := Pending | Rejected (message : string) | Resolved.

(** The variables the handlers close over. *)
Record Parser := {
  results : list ParsedRow;
  rowNumber : nat;
  promise : Promise
}.

Definition reject (message : string) (p : Parser) : Parser :=
  match promise p with
  | Pending => {| results := results p; rowNumber := rowNumber p;
                  promise := Rejected message |}
  | _ => p
  end.

Definition resolve (p : Parser) : Parser :=
  match promise p with
  | Pending => {| results := results p; rowNumber := rowNumber p;
                  promise := Resolved |}
  | _ => p
  end.

(** The loop over [ALL_COLUMNS] that fills [filteredRow]. *)
Definition filteredRow (row : gmap string string) : gmap string string :=
  foldl (λ filtered col,
           match row !! col with
           | Some cell => <[col := cell]> filtered
           | None => filtered
           end) ∅ ALL_COLUMNS.

Definition handle (p : Parser) (event : Event) : Parser :=
  match event with
  | on_headers headers =>
      let missingColumns := filter (λ col, col ∉ headers) REQUIRED_COLUMNS in
      if bool_decide (0 < length missingColumns)%nat
      then reject ("Missing required columns: " +:+ join ", " missingColumns) p
      else p
  | on_data row =>
      let rowNumber := S (rowNumber p) in
      {| results := results p ++ [{| fields := filteredRow row;
                                     _rowNumber := rowNumber |}];
         rowNumber := rowNumber;
         promise := promise p |}
  | on_error message => reject ("CSV parsing error: " +:+ message) p
  | on_end =>
      if Nat.eqb (length (results p)) 0
      then reject "CSV file is empty or contains no valid data" p
      else resolve p
  end.

(** What awaiting [parseCSV] comes to once the stream has emitted
    [events]: the message of the rejection, the rows (the array the
    handlers pushed to), or nothing when no handler has settled the
    promise. *)
Definition parseCSV (events : list Event) : option (string + list ParsedRow) :=
  let p := foldl handle {| results := []; rowNumber := 0; promise := Pending |} events in
  match promise p with
  | Pending => None
  | Rejected message => Some (inl message)
  | Resolved => Some (inr (results p))
  end.

(** *** Validation

    [csvStudentSchema.validate] is Joi's; it is a parameter here, from
    the cleaned row to the error details ([path[0]] and [message] of
    each) or to the validated value. *)

Record Value := {
  v_name : string;
  v_email : string;
  v_student_code : string;
  v_phone : option string;
  v_password : option string
}.

Record FieldError := {
  field : string;
  message : string
}.

(** The two shapes [validateRecord] answers with. *)
Inductive ValidationResult :=
| Valid (rowNumber : nat) (data : Value)
| Invalid (errors : list FieldError) (rowNumber : nat) (data : gmap string string).

Record ValidationResults := {
  validRecords : list CsvRecord;
  invalidRecords : list ValidationResult;
  totalRecords : nat;
  validCount : nat;
  invalidCount : nat
}.

(** [{ ...validationResult.data, _rowNumber: rowNumber }]. *)
Definition with_rowNumber (data : Value) (rowNumber : nat) : CsvRecord :=
  {| r_name := v_name data; r_email := v_email data;
     r_student_code := v_student_code data; r_phone := v_phone data;
     r_password := v_password data; r_rowNumber := rowNumber |}.

Section Validation.
Context (csvStudentSchema : gmap string string → list FieldError + Value).

Definition validateRecord (record : gmap string string) (rowNumber : nat)
  : ValidationResult :=
  match csvStudentSchema record with
  | inl details => Invalid details rowNumber record
  | inr value => Valid rowNumber value
  end.

(** The body of the [forEach] of [validateRecords], on the two arrays
    pushed to.  [record._rowNumber || 0] is the number itself. *)
Definition validateRow (acc : list CsvRecord * list ValidationResult)
    (record : ParsedRow) : list CsvRecord * list ValidationResult :=
  let rowNumber := _rowNumber record in
  let cleanRecord := fields record in
  match validateRecord cleanRecord rowNumber with
  | Valid rowNumber data => (acc.1 ++ [with_rowNumber data rowNumber], acc.2)
  | Invalid _ _ _ as validationResult => (acc.1, acc.2 ++ [validationResult])
  end.

Definition validateRecords (records : list ParsedRow) : ValidationResults :=
  let '(validRecords, invalidRecords) := foldl validateRow ([], []) records in
  {| validRecords := validRecords;
     invalidRecords := invalidRecords;
     totalRecords := length records;
     validCount := length validRecords;
     invalidCount := length invalidRecords |}.

(** [parseAndValidateCSV]: [success: false] with the message and empty
    results when [parseCSV] rejects. *)
Definition parseAndValidateCSV (events : list Event)
  : option (string + ValidationResults) :=
  match parseCSV events with
  | None => None
  | Some (inl message) => Some (inl message)
  | Some (inr records) => Some (inr (validateRecords records))
  end.

End Validation.

(** The events of a file that is read to its end: the headers, a row
    after the other, the end. *)
Definition read (headers : list string) (rows : list (gmap string string))
  : list Event :=
  on_headers headers :: (on_data <$> rows) ++ [on_end].

End CsvFile.

(** A file for the examples, and a stand-in for the schema that asks
    for the three required cells only. *)

Module SampleFile.
Import CsvFile.

Definition schema (row : gmap string string) : list FieldError + Value :=
  match row !! "name", row !! "email", row !! "student_code" with
  | Some name, Some email, Some student_code =>
      inr {| v_name := name; v_email := email; v_student_code := student_code;
             v_phone := row !! "phone"; v_password := row !! "password" |}
  | _, _, _ => inl [{| field := "name"; message := "Name is required" |}]
  end.

Definition headers : list string := ["name"; "email"; "student_code"; "note"].

Definition ann : gmap string string :=
  {[ "name" := "Ann"; "email" := "a@x.com"; "student_code" := "S1"; "note" := "new" ]}.

(** A row without a name. *)
Definition nameless : gmap string string :=
  {[ "email" := "b@x.com"; "student_code" := "S2" ]}.

Definition bob : gmap string string :=
  {[ "name" := "Bob"; "email" := "b@x.com"; "student_code" := "S3" ]}.

End SampleFile.

(** ** Errors and replies

    What a handler or a middleware throws is turned into the error
    response by the error middleware; what a handler sends is the
    status and the [data] of the JSON body. *)

Module Http.

(** [new ApiError(statusCode, message, code, details)]; [details] is the
    [{ field, value }] of a conflict. *)
Record ApiError := {
  statusCode : nat;
  error_message : string;
  code : string;
  details : option (string * string)
}.

(** [ApiError.conflict]. *)
Definition conflict (message : string) (field value : string) : ApiError :=
  {| statusCode := 409; error_message := message; code := "CONFLICT";
     details := Some (field, value) |}.

Inductive Thrown :=
| api_error (e : ApiError)
| rejection (e : Error)
| plain_error (message : string).

Inductive Reply (A : Type) :=
| Threw (e : Thrown)
| Sent (status : nat) (data : A).
Global Arguments Threw {A} e.
Global Arguments Sent {A} status data.

End Http.

(** ** authService and the two middlewares

    [bcrypt] and [jsonwebtoken] are kept symbolic: a hash is the call
    that made it, and [bcrypt.compare] accepts the password it was made
    from; a token is the call [jwt.sign] that made it. *)

Module AuthService.
Import Db Http.








(** The [user] of a login answer and of [req.user]: the account
    without its password hash (of the columns the store keeps). *)
Record UserData := {
  ud_id : nat;
  ud_email : string;
  ud_name : string;
  ud_role : string
}.

Definition userData (user : User) : UserData :=
  {| ud_id := u_id user; ud_email := u_email user; ud_name := u_name user;
     ud_role := u_role user |}.




(** [User.findByPk]. *)
Definition User_findByPk (db : Database) (id : nat) : option User :=
  List.find (λ u, bool_decide (u_id u = id)) (users db).

Definition getUserById (db : Database) (userId : nat) : Thrown + User :=
  match User_findByPk db userId with
  | None => inl (api_error {| statusCode := 404; error_message := "USER_NOT_FOUND";
                              code := "User not found"; details := None |})
  | Some user => inr user
  end.

End AuthService.

Module Middleware.
Import Db Http AuthService.

(** [authenticate], from the payload that [verifyAccessToken] decoded
    on: the account is read from the store and becomes [req.user]. *)
Definition authenticate (db : Database) (decoded_id : nat) : Thrown + UserData :=
  match getUserById db decoded_id with
  | inl e => inl e
  | inr user => inr (userData user)
  end.

(** [authorize(...allowedRoles)]: what it throws, or [None] when it
    calls [next()]. *)
Definition authorize (allowedRoles : list string) (user : option UserData)
  : option Thrown :=
  match user with
  | None => Some (api_error {| statusCode := 401; error_message := "UNAUTHORIZED";
                               code := "Authentication required"; details := None |})
  | Some user =>
      if bool_decide (ud_role user ∈ allowedRoles) then None
      else Some (api_error
                   {| statusCode := 403; error_message := "FORBIDDEN";
                      code := "Access denied. Required role: "
                              +:+ CsvFile.join " or " allowedRoles;
                      details := None |})
  end.

End Middleware.

(** ** studentController: [createStudent], [validateCSV] and [bulkImport]

    The handlers from the body on: the request has passed [authenticate]
    and [authorize], and its body the handler's own Joi schema.  An
    error that is no [ApiError] goes to the error middleware as it
    is. *)

Module StudentRequests.
Import Db BulkImportService CsvFile Http.

(** [Student.findOne({ where: { student_code } })]. *)
Definition Student_findOne (db : Database) (student_code : string) : option Student :=
  List.find (λ s, bool_decide (s_student_code s = student_code)) (students db).

(** [Student.findByPk(id, { include: User as 'user' })], the alias
    under which [Student] registers its account. *)
Definition Student_findByPk (db : Database) (id : nat) : option (Student * option User) :=
  (λ s, (s, user_of db s)) <$> List.find (λ s, bool_decide (s_id s = id)) (students db).

Section Create.
Context {validators : Validators}.

(** [createStudent], on the validated body. *)
Definition createStudent (db : Database) (value : Value)
  : Database * Reply (option (Student * option User)) :=
  match User_findOne db (v_email value) with
  | Some _ =>
      (db, Threw (api_error (conflict "Email already exists" "email" (v_email value))))
  | None =>
      match Student_findOne db (v_student_code value) with
      | Some _ =>
          (db, Threw (api_error (conflict "Student code already exists" "student_code"
                                   (v_student_code value))))
      | None =>
          let transaction := transaction db in
          let password := default "student123" (or_else (v_password value) None) in
          let password_hash := bcrypt_hash password 10 in
          let '(r, transaction) :=
            (user ← within (User_create (v_email value) (v_name value)
                              password_hash "student");
             student ← within (Student_create (u_id user) (v_student_code value)
                                 (or_else (v_phone value) None));
             mret student) transaction in
          match r with
          | inr student =>
              let db := commit transaction in
              (db, Sent 201 (Student_findByPk db (s_id student)))
          | inl e => (rollback transaction, Threw (rejection e))
          end
      end
  end.

End Create.

(** An entry of [recordsWithDbDuplicates]. *)
Record Flagged := {
  flagged_rowNumber : nat;
  flagged_name : string;
  flagged_email : string;
  flagged_student_code : string;
  flagged_phone : option string;
  dup_email : bool;
  dup_student_code : bool;
  hasAnyDuplicate : bool
}.

Record PreviewSummary := {
  sum_totalRecords : nat;
  sum_validRecords : nat;
  sum_invalidRecords : nat;
  sum_internalDuplicates : nat;
  sum_databaseDuplicates : nat
}.

Record Preview := {
  summary : PreviewSummary;
  preview_validRecords : list Flagged;
  preview_invalidRecords : list ValidationResult;
  preview_internalDuplicates : list CsvService.Duplicate
}.

Definition parse_error (message : string) : ApiError :=
  {| statusCode := 400; error_message := message; code := "CSV_PARSE_ERROR";
     details := None |}.

Section Handlers.
Context {lowering : JsString.Lowering} {validators : Validators}.
Context (csvStudentSchema : gmap string string → list FieldError + Value).

(** The [map] callback of [validateCSV]. *)
Definition flag (dbDuplicates : DuplicateInfo) (record : CsvRecord) : Flagged :=
  let email := JsString.toLowerCase (r_email record) in
  let studentCode := r_student_code record in
  let emailExists := bool_decide (is_Some (emailMap dbDuplicates !! email)) in
  let codeExists := bool_decide (is_Some (studentCodeMap dbDuplicates !! studentCode)) in
  {| flagged_rowNumber := r_rowNumber record;
     flagged_name := r_name record;
     flagged_email := r_email record;
     flagged_student_code := r_student_code record;
     flagged_phone := r_phone record;
     dup_email := emailExists;
     dup_student_code := codeExists;
     hasAnyDuplicate := emailExists || codeExists |}.

(** [validateCSV], once the stream of the file has emitted [events];
    the handler only reads the store.  The rejection of
    [detectDatabaseDuplicates] is not caught. *)
Definition validateCSV (db : Database) (events : list Event)
  : option (Reply Preview) :=
  match parseAndValidateCSV csvStudentSchema events with
  | None => None
  | Some (inl message) => Some (Threw (api_error (parse_error message)))
  | Some (inr validationResults) =>
      let internalDuplicates :=
        CsvService.detectInternalDuplicates (validRecords validationResults) in
      match detectDatabaseDuplicates db (validRecords validationResults) with
      | inl e => Some (Threw (rejection e))
      | inr dbDuplicates =>
          let recordsWithDbDuplicates :=
            flag dbDuplicates <$> validRecords validationResults in
          Some (Sent 200
            {| summary :=
                 {| sum_totalRecords := totalRecords validationResults;
                    sum_validRecords := validCount validationResults;
                    sum_invalidRecords := invalidCount validationResults;
                    sum_internalDuplicates := CsvService.duplicateCount internalDuplicates;
                    sum_databaseDuplicates :=
                      length (filter (λ r, hasAnyDuplicate r = true)
                                recordsWithDbDuplicates) |};
               preview_validRecords := recordsWithDbDuplicates;
               preview_invalidRecords := invalidRecords validationResults;
               preview_internalDuplicates := CsvService.duplicates internalDuplicates |})
      end
  end.

(** [bulkImport], once the stream of the file has emitted [events]: a
    file that [parseAndValidateCSV] fails on is answered with status 400,
    code [CSV_PARSE_ERROR] and the message on the left;
    [StudentController.bulkImport] takes over with the valid rows. *)
Definition bulkImport (db : Database) (events : list Event) (strategy : Strategy)
  : option (Database * (string + StudentController.Response)) :=
  match parseAndValidateCSV csvStudentSchema events with
  | None => None
  | Some (inl message) => Some (db, inl message)
  | Some (inr validationResults) =>
      let '(db, response) :=
        StudentController.bulkImport db (validRecords validationResults) strategy in
      Some (db, inr response)
  end.

(** [router.post('/bulk-import', authenticate, authorize('instructor'),
    studentController.bulkImport)], for a request whose token decodes
    to the account [decoded_id]. *)
Definition post_bulk_import (db : Database) (decoded_id : nat) (events : list Event)
    (strategy : Strategy)
  : option (Database * (Thrown + (string + StudentController.Response))) :=
  match Middleware.authenticate db decoded_id with
  | inl e => Some (db, inl e)
  | inr user =>
      match Middleware.authorize ["instructor"] (Some user) with
      | Some e => Some (db, inl e)
      | None =>
          match bulkImport db events strategy with
          | None => None
          | Some (db, reply) => Some (db, inr reply)
          end
      end
  end.

End Handlers.

End StudentRequests.

(** ** studentController.enrollStudent

    The tables [courses] and [course_enrollments] beside the two of the
    store ([models/Course.js], [models/CourseEnrollment.js]):
    [course_enrollments] references a course and a student and is
    unique in the pair.  The id of a course is kept as its text, which
    the error message prints; the ids of a request are taken as the
    database prints them (PostgreSQL compares uuids, not their
    spelling).  The timestamp [enrolled_at] is left out. *)

Module Enrollments.
Import Db Http.

Record Course := {
  c_id : string;
  c_name : string;
  c_code : string
}.

Record CourseEnrollment := {
  ce_id : nat;
  ce_course_id : string;
  ce_student_id : nat
}.

Record Registry := {
  people : Database;
  courses : list Course;
  course_enrollments : list CourseEnrollment
}.

(** [Student.findByPk(id)]. *)
Definition Student_findByPk (reg : Registry) (id : nat) : option Student :=
  List.find (λ s, bool_decide (s_id s = id)) (students (people reg)).

(** [Course.findAll({ where: { id: { [Op.in]: ids } } })]. *)
Definition Course_findAll (reg : Registry) (ids : list string) : list Course :=
  filter (λ c, c_id c ∈ ids) (courses reg).

(** [CourseEnrollment.findOne({ where: { student_id, course_id } })]. *)
Definition CourseEnrollment_findOne (reg : Registry) (student_id : nat)
    (course_id : string) : option CourseEnrollment :=
  List.find (λ e, bool_decide (ce_student_id e = student_id ∧ ce_course_id e = course_id))
    (course_enrollments reg).

(** The pairs (course, student) that are enrolled. *)
Definition enrolled_pairs (reg : Registry) : list (string * nat) :=
  (λ e, (ce_course_id e, ce_student_id e)) <$> course_enrollments reg.

(** [CourseEnrollment.create({ student_id, course_id })]: the two
    foreign keys and the unique index. *)
Definition CourseEnrollment_create (student_id : nat) (course_id : string)
    (reg : Registry) : (Error + CourseEnrollment) * Registry :=
  if decide ((student_id ∉ s_id <$> students (people reg))
             ∨ (course_id ∉ c_id <$> courses reg))
  then (inl (SequelizeForeignKeyConstraintError "student_id, course_id"), reg)
  else if decide ((course_id, student_id) ∈ enrolled_pairs reg)
  then (inl (SequelizeUniqueConstraintError "student_id, course_id"), reg)
  else
    let enrollment := {| ce_id := fresh (ce_id <$> course_enrollments reg);
                         ce_course_id := course_id; ce_student_id := student_id |} in
    (inr enrollment,
     {| people := people reg; courses := courses reg;
        course_enrollments := course_enrollments reg ++ [enrollment] |}).

Inductive EnrollmentStatus := already_enrolled | enrolled.

Record EnrollmentResult := {
  er_course_id : string;
  er_status : EnrollmentStatus;
  er_message : string
}.

(** The [for ... of value.course_ids] inside the transaction, from
    [course_ids] on: [working] is the store as the transaction sees it;
    a rejection leaves the loop. *)
Fixpoint enrollEach (id : nat) (course_ids : list string) (working : Registry)
    (enrollmentResults : list EnrollmentResult)
  : Error + Registry * list EnrollmentResult :=
  match course_ids with
  | [] => inr (working, enrollmentResults)
  | courseId :: course_ids =>
      match CourseEnrollment_findOne working id courseId with
      | Some _ =>
          enrollEach id course_ids working
            (enrollmentResults
             ++ [{| er_course_id := courseId; er_status := already_enrolled;
                    er_message := "Student is already enrolled in this course" |}])
      | None =>
          match CourseEnrollment_create id courseId working with
          | (inl e, _) => inl e
          | (inr _, working) =>
              enrollEach id course_ids working
                (enrollmentResults
                 ++ [{| er_course_id := courseId; er_status := enrolled;
                        er_message := "Successfully enrolled" |}])
          end
      end
  end.

(** What the loop pushes for a course, by the store it finds. *)
Definition enrollmentResult (reg : Registry) (id : nat) (courseId : string)
  : EnrollmentResult :=
  if decide ((courseId, id) ∈ enrolled_pairs reg)
  then {| er_course_id := courseId; er_status := already_enrolled;
          er_message := "Student is already enrolled in this course" |}
  else {| er_course_id := courseId; er_status := enrolled;
          er_message := "Successfully enrolled" |}.

(** [ApiError.notFound]. *)
Definition notFound (message : string) : ApiError :=
  {| statusCode := 404; error_message := message; code := "NOT_FOUND";
     details := None |}.

(** The [data] of the answer: the student as read after the commit
    with its account, with the ids of the courses joined to it through its enrollments (a
    set: the query gives them in no stated order), and the results of
    the loop. *)
Record Enrolled := {
  student : option (Student * option User);
  enrolledCourses : gset string;
  enrollmentResults : list EnrollmentResult
}.

(** [enrollStudent], on the id of the route and the validated
    [course_ids]. *)
Definition enrollStudent (reg : Registry) (id : nat) (course_ids : list string)
  : Registry * Reply Enrolled :=
  match Student_findByPk reg id with
  | None => (reg, Threw (api_error (notFound "Student not found")))
  | Some _ =>
      let found := Course_findAll reg course_ids in
      if negb (Nat.eqb (length found) (length course_ids)) then
        let foundIds := c_id <$> found in
        let missingIds := filter (λ id, id ∉ foundIds) course_ids in
        (reg, Threw (api_error (notFound ("Courses not found: "
                                          +:+ CsvFile.join ", " missingIds))))
      else
        match enrollEach id course_ids reg [] with
        | inr (committed, enrollmentResults) =>
            (committed,
             Sent 200
               {| student := StudentRequests.Student_findByPk (people committed) id;
                  enrolledCourses :=
                    list_to_set
                      (c_id <$>
                         filter (λ c, (c_id c, id) ∈ enrolled_pairs committed)
                           (courses committed));
                  enrollmentResults := enrollmentResults |})
        | inl e => (reg, Threw (rejection e))
        end
  end.

(** The keys of the three tables: the foreign keys of an enrollment and
    the primary key of a course. *)
Definition registry_ok (reg : Registry) : Prop :=
  NoDup (c_id <$> courses reg)
  ∧ ∀ e, e ∈ course_enrollments reg →
         (ce_student_id e ∈ s_id <$> students (people reg))
         ∧ (ce_course_id e ∈ c_id <$> courses reg).

End Enrollments.

(** * Properties *)

(** ** Strings and the suffix generator *)

Section StringFacts.
Import JsString.

Lemma append_cons (c : ascii) (s t : string) : String c s +:+ t = String c (s +:+ t).
Proof. reflexivity. Qed.

Lemma split_without (sep : ascii) (s : string) :
  contains sep s = false → split sep s = [s].
Proof.
  induction s as [|c s IH]; simpl; [done|].
  intros [Hc Hs]%orb_false_elim. rewrite Hc, (IH Hs). done.
Qed.

Lemma split_at_first (sep : ascii) (l d : string) :
  contains sep l = false →
  split sep (l +:+ String sep d) = l :: split sep d.
Proof.
  induction l as [|c l IH]; intros Hl.
  - change ("" +:+ String sep d) with (String sep d). simpl.
    by rewrite Ascii.eqb_refl.
  - simpl in Hl. apply orb_false_elim in Hl as [Hc Hl].
    rewrite append_cons. simpl. rewrite Hc, (IH Hl). done.
Qed.
End StringFacts.

Section SuffixAllocator.
Import Db BulkImportService.

(** For an address [local@domain] the variant is [local_n@domain]. *)
Lemma generateEmailWithSuffix_local_domain (localPart domain : string) (n : nat) :
  JsString.contains "@" localPart = false →
  JsString.contains "@" domain = false →
  generateEmailWithSuffix (localPart +:+ "@" +:+ domain) n
  = localPart +:+ "_" +:+ pretty n +:+ "@" +:+ domain.
Proof.
  intros Hl Hd. unfold generateEmailWithSuffix.
  change ("@" +:+ domain) with (String "@" domain).
  rewrite (split_at_first _ _ _ Hl), (split_without _ _ Hd). done.
Qed.

Lemma User_findOne_None (db : Database) (email : string) :
  User_findOne db email = None ↔ email ∉ u_email <$> users db.
Proof.
  unfold User_findOne. induction (users db) as [|u us IH]; simpl.
  - split; [intros _ []%elem_of_nil | done].
  - rewrite not_elem_of_cons. case_bool_decide as Hu.
    + split; [done | intros [? _]; congruence].
    + rewrite IH. split; [intros ?; split; [congruence | done] | by intros [_ ?]].
Qed.

Lemma User_findOne_Some (db : Database) (email : string) :
  is_Some (User_findOne db email) ↔ email ∈ u_email <$> users db.
Proof.
  destruct (User_findOne db email) eqn:E.
  - split; [|eauto]. intros _.
    destruct (decide (email ∈ u_email <$> users db)) as [|Hn]; [done|].
    apply User_findOne_None in Hn. congruence.
  - apply User_findOne_None in E. split; [intros [? [=]] | done].
Qed.

(** The loop from [suffix] on returns the first free variant. *)
Lemma findAvailableEmail_loop_returns db originalEmail (n : nat) :
  (n ≤ 1000)%nat →
  generateEmailWithSuffix originalEmail n ∉ u_email <$> users db →
  ∀ (fuel suffix : nat),
    (1 ≤ suffix ≤ n)%nat → (n - suffix < fuel)%nat →
    (∀ m, (suffix ≤ m < n)%nat →
          generateEmailWithSuffix originalEmail m ∈ u_email <$> users db) →
    findAvailableEmail_loop fuel db originalEmail suffix
      (generateEmailWithSuffix originalEmail suffix)
    = Returned (generateEmailWithSuffix originalEmail n).
Proof.
  intros Hn Hfree fuel. induction fuel as [|fuel IH]; intros suffix Hs Hf Htaken; [lia|].
  simpl. destruct (decide (suffix = n)) as [->|Hne].
  - apply User_findOne_None in Hfree. by rewrite Hfree.
  - destruct (User_findOne db _) eqn:E.
    + destruct (Nat.ltb_spec 1000 (S suffix)); [lia|].
      apply IH; [lia | lia | intros m Hm; apply Htaken; lia].
    + apply User_findOne_None in E. destruct E. apply Htaken. lia.
Qed.

(** With every variant up to 1000 taken the loop throws. *)
Lemma findAvailableEmail_loop_throws db originalEmail :
  ∀ (fuel suffix : nat),
    (1 ≤ suffix ≤ 1000)%nat → (1000 - suffix < fuel)%nat →
    (∀ m, (suffix ≤ m ≤ 1000)%nat →
          generateEmailWithSuffix originalEmail m ∈ u_email <$> users db) →
    findAvailableEmail_loop fuel db originalEmail suffix
      (generateEmailWithSuffix originalEmail suffix)
    = Thrown ("Could not find available email for " +:+ originalEmail).
Proof.
  intros fuel. induction fuel as [|fuel IH]; intros suffix Hs Hf Htaken; [lia|].
  simpl. destruct (User_findOne db _) eqn:E.
  - destruct (Nat.ltb_spec 1000 (S suffix)); [done|].
    apply IH; [lia | lia | intros m Hm; apply Htaken; lia].
  - apply User_findOne_None in E. destruct E. apply Htaken. lia.
Qed.

(** A thousand rounds are enough: the loop always leaves by [return]
    or by [throw]. *)
Lemma findAvailableEmail_loop_fuel db originalEmail :
  findAvailableEmail_loop 1000 db originalEmail 1
    (generateEmailWithSuffix originalEmail 1) ≠ OutOfFuel.
Proof.
  assert (∀ fuel suffix, (1000 - suffix < fuel)%nat →
            findAvailableEmail_loop fuel db originalEmail suffix
              (generateEmailWithSuffix originalEmail suffix) ≠ OutOfFuel) as H.
  { intros fuel. induction fuel as [|fuel IH]; intros suffix Hf; [lia|].
    simpl. destruct (User_findOne db _); [|done].
    destruct (Nat.ltb_spec 1000 (S suffix)); [done|]. apply IH. lia. }
  apply H. lia.
Qed.

(** [findAvailableEmail] answers with the first variant that is free. *)
Lemma findAvailableEmail_first_free db originalEmail (n : nat) :
  (1 ≤ n ≤ 1000)%nat →
  generateEmailWithSuffix originalEmail n ∉ u_email <$> users db →
  (∀ m, (1 ≤ m < n)%nat →
        generateEmailWithSuffix originalEmail m ∈ u_email <$> users db) →
  findAvailableEmail db originalEmail = inr (generateEmailWithSuffix originalEmail n).
Proof.
  intros Hn Hfree Htaken. unfold findAvailableEmail.
  rewrite (findAvailableEmail_loop_returns db originalEmail n); [done|lia|done|lia|lia|].
  intros m Hm. by apply Htaken.
Qed.

(** What [findAvailableEmail] answers with is not in the store. *)
Lemma findAvailableEmail_free db originalEmail email :
  findAvailableEmail db originalEmail = inr email →
  email ∉ u_email <$> users db.
Proof.
  unfold findAvailableEmail.
  assert (∀ fuel suffix e,
            findAvailableEmail_loop fuel db originalEmail suffix e = Returned email →
            email ∉ u_email <$> users db) as H.
  { intros fuel. induction fuel as [|fuel IH]; intros suffix e; simpl; [done|].
    destruct (User_findOne db e) eqn:E.
    - destruct (1000 <? S suffix)%nat; [done|]. apply IH.
    - intros [= <-]. by apply User_findOne_None. }
  destruct (findAvailableEmail_loop _ _ _ _ _) eqn:E; [|done..].
  intros [= <-]. eapply H, E.
Qed.

End SuffixAllocator.

(** ** The internal-duplicate precheck *)

Section InternalDuplicates.
Import CsvService InternalDuplicateSpec.
Context {lowering : JsString.Lowering}.

Lemma find_snoc {A} (f : A → bool) (l : list A) (x : A) :
  List.find f (l ++ [x])
  = match List.find f l with
    | Some y => Some y
    | None => if f x then Some x else None
    end.
Proof. induction l as [|y l IH]; simpl; [done|]. by destruct (f y). Qed.

Lemma firstSeenAt_None key earlier r :
  firstSeenAt key earlier r = None ↔ ∀ r', r' ∈ earlier → key r' ≠ key r.
Proof.
  unfold firstSeenAt. rewrite fmap_None. split.
  - intros H r' Hr' Heq. apply list_elem_of_In in Hr'.
    pose proof (find_none _ _ H r' Hr') as Hf. simpl in Hf.
    by apply bool_decide_eq_false in Hf.
  - intros H. destruct (List.find _ earlier) as [r'|] eqn:E; [|done].
    apply find_some in E as [Hin Hk]. apply bool_decide_eq_true in Hk.
    apply list_elem_of_In in Hin. by destruct (H r' Hin).
Qed.

Lemma firstSeenAt_Some key earlier r first :
  firstSeenAt key earlier r = Some first →
  ∃ i r', earlier !! i = Some r' ∧ key r' = key r ∧ r_rowNumber r' = first
          ∧ ∀ j r'', (j < i)%nat → earlier !! j = Some r'' → key r'' ≠ key r.
Proof.
  unfold firstSeenAt. induction earlier as [|x earlier IH]; simpl; [done|].
  case_bool_decide as Hx.
  - intros [= <-]. exists 0%nat, x. repeat split; [done|]. intros j ? Hj. lia.
  - intros (i & r' & Hi & Hk & Hn & Hmin)%IH. exists (S i), r'.
    repeat split; [done..|]. intros [|j] r'' Hj; simpl.
    + by intros [= <-].
    + apply Hmin. lia.
Qed.

Lemma firstRows_lookup key earlier m r :
  firstRows key earlier m → m !! key r = firstSeenAt key earlier r.
Proof. intros H. apply H. Qed.

Lemma firstRows_seen key earlier m r first :
  firstRows key earlier m → m !! key r = Some first →
  firstRows key (earlier ++ [r]) m.
Proof.
  intros H Hr k. rewrite find_snoc, H.
  destruct (List.find _ earlier) eqn:E; [done|]. simpl.
  case_bool_decide as Hk; [|done]. subst k. rewrite H, E in Hr. done.
Qed.

Lemma firstRows_fresh key earlier m r :
  firstRows key earlier m → m !! key r = None →
  firstRows key (earlier ++ [r]) (<[key r := r_rowNumber r]> m).
Proof.
  intros H Hr k. rewrite find_snoc. destruct (decide (key r = k)) as [<-|Hk].
  - rewrite lookup_insert_eq. rewrite H in Hr.
    destruct (List.find _ earlier); [done|]. simpl.
    by rewrite bool_decide_eq_true_2.
  - rewrite lookup_insert_ne by done. rewrite H.
    destruct (List.find _ earlier); [done|]. simpl.
    by rewrite bool_decide_eq_false_2.
Qed.

Lemma scanRecord_scanned earlier st r :
  scanned earlier st →
  scanned (earlier ++ [r]) (scanRecord st r)
  ∧ found (scanRecord st r) = found st ++ duplicatesOfRow earlier r.
Proof.
  intros [He Hc]. unfold scanRecord, duplicatesOfRow.
  rewrite <- (firstRows_lookup _ _ _ r He), <- (firstRows_lookup _ _ _ r Hc).
  unfold normalizedEmail at 1.
  destruct (emailMap st !! JsString.toLowerCase (r_email r)) as [n|] eqn:E1;
    destruct (studentCodeMap st !! r_student_code r) as [m|] eqn:E2; simpl;
    (split; [split; simpl|]);
    eauto using firstRows_seen, firstRows_fresh.
  all: try (rewrite <- ?app_assoc, ?app_nil_r; reflexivity).
  all: by apply (firstRows_fresh normalizedEmail).
Qed.

Lemma scan_found records : ∀ earlier st,
  scanned earlier st →
  found (foldl scanRecord st records) = found st ++ expectedDuplicates earlier records.
Proof.
  induction records as [|r rest IH]; intros earlier st Hst; simpl.
  - by rewrite app_nil_r.
  - destruct (scanRecord_scanned earlier st r Hst) as [Hst' Hfound].
    rewrite (IH _ _ Hst'), Hfound, <- app_assoc. done.
Qed.

Lemma detectInternalDuplicates_expected records :
  duplicates (detectInternalDuplicates records) = expectedDuplicates [] records.
Proof.
  unfold detectInternalDuplicates. simpl. rewrite (scan_found records []); [done|].
  split; intros k; simpl; by rewrite lookup_empty.
Qed.

Lemma hasDuplicates_expected records :
  hasDuplicates (detectInternalDuplicates records) = true
  ↔ expectedDuplicates [] records ≠ [].
Proof.
  rewrite <- detectInternalDuplicates_expected.
  unfold detectInternalDuplicates. simpl.
  destruct (found _); simpl; split; done.
Qed.
End InternalDuplicates.

(** ** The statements on the store *)

Section Store.
Import Db.
Context {validators : Validators}.

Lemma fresh_above (ids : list nat) (x : nat) : x ∈ ids → (x < fresh ids)%nat.
Proof.
  unfold fresh. induction ids as [|y ids IH]; simpl.
  - intros []%elem_of_nil.
  - intros [->|Hx]%elem_of_cons; [lia|]. specialize (IH Hx). lia.
Qed.

Lemma fresh_not_in (ids : list nat) : fresh ids ∉ ids.
Proof. intros Hin%fresh_above. lia. Qed.

Lemma filter_all {A} (P : A → Prop) `{∀ x, Decision (P x)} (l : list A) :
  (∀ x, x ∈ l → P x) → filter P l = l.
Proof.
  induction l as [|x l IH]; intros Hall; [done|].
  rewrite filter_cons_True by (apply Hall; left).
  f_equal. apply IH. intros y Hy. apply Hall. by right.
Qed.

Lemma role_student : bool_decide ("student" ∈ ["instructor"; "student"]) = true.
Proof. apply bool_decide_eq_true_2. right. left. Qed.

(** The validators of [User] pass a student account exactly when
    [isEmail] passes its email and [notEmpty] its name. *)
Lemma User_validate_student email name :
  User_validate email name "student" = []
  ↔ isEmail email = true ∧ notEmpty name = true.
Proof.
  unfold User_validate. rewrite role_student, app_nil_r.
  destruct (isEmail email), (notEmpty name); simpl; intuition discriminate.
Qed.

Lemma User_create_inr email name password_hash db user db' :
  User_create email name password_hash "student" db = (inr user, db') →
  Accepted.account email name = true
  ∧ (email ∉ u_email <$> users db)
  ∧ user = {| u_id := fresh (u_id <$> users db); u_email := email; u_name := name;
              u_password_hash := password_hash; u_role := "student" |}
  ∧ db' = {| users := users db ++ [user]; students := students db |}.
Proof.
  unfold User_create, Accepted.account.
  destruct (User_validate email name "student") eqn:Hv; [|discriminate].
  apply User_validate_student in Hv as [-> ->]. simpl.
  destruct (fits 255 email && fits 255 name); simpl; [|discriminate].
  case_decide; [discriminate|]. intros [= <- <-]. done.
Qed.

Lemma User_create_inl email name password_hash db e db' :
  User_create email name password_hash "student" db = (inl e, db') →
  db' = db
  ∧ (Accepted.account email name = false ∨ (email ∈ u_email <$> users db)).
Proof.
  unfold User_create, Accepted.account.
  destruct (User_validate email name "student") eqn:Hv.
  - apply User_validate_student in Hv as [-> ->]. simpl.
    destruct (fits 255 email && fits 255 name); simpl.
    + case_decide; [|discriminate]. intros [= <- <-]. auto.
    + intros [= <- <-]. auto.
  - intros [= <- <-]. split; [done|]. left.
    destruct (isEmail email) eqn:He; [|done].
    destruct (notEmpty name) eqn:Hn; [|done].
    assert (User_validate email name "student" = []) as Hnil
      by (by apply User_validate_student).
    congruence.
Qed.

(** [User.create] inserts what the model accepts under an email that is
    free. *)
Lemma User_create_accepted email name password_hash db :
  Accepted.account email name = true →
  email ∉ u_email <$> users db →
  User_create email name password_hash "student" db
  = (inr {| u_id := fresh (u_id <$> users db); u_email := email; u_name := name;
            u_password_hash := password_hash; u_role := "student" |},
     {| users := users db
                 ++ [{| u_id := fresh (u_id <$> users db); u_email := email;
                        u_name := name; u_password_hash := password_hash;
                        u_role := "student" |}];
        students := students db |}).
Proof.
  intros Hacc Hfree.
  destruct (User_create email name password_hash "student" db) as [[e|user] db'] eqn:E.
  - apply User_create_inl in E as [_ [Hno|Hin]]; [congruence|done].
  - apply User_create_inr in E as (_ & _ & -> & ->). done.
Qed.

Lemma Student_create_inr user_id student_code phone db student db' :
  Student_create user_id student_code phone db = (inr student, db') →
  Accepted.profile student_code phone = true
  ∧ (user_id ∈ u_id <$> users db)
  ∧ (user_id ∉ s_user_id <$> students db)
  ∧ (student_code ∉ s_student_code <$> students db)
  ∧ student = {| s_id := fresh (s_id <$> students db); s_user_id := user_id;
                 s_student_code := student_code; s_phone := phone |}
  ∧ db' = {| users := users db; students := students db ++ [student] |}.
Proof.
  unfold Student_create, Accepted.profile.
  destruct (notEmpty student_code); simpl; [|discriminate].
  destruct (fits 50 student_code && fits_or_null 20 phone) eqn:Hf; simpl; [|discriminate].
  case_decide as Hu; [discriminate|]. case_decide as Hc; [discriminate|].
  case_decide as Hfk; [discriminate|]. intros [= <- <-]. done.
Qed.

Lemma Student_create_inl user_id student_code phone db e db' :
  Student_create user_id student_code phone db = (inl e, db') →
  db' = db
  ∧ (refused_by_database e = false → notEmpty student_code = false).
Proof.
  unfold Student_create.
  destruct (notEmpty student_code); simpl.
  - destruct (fits 50 student_code && fits_or_null 20 phone); simpl;
      [|by intros [= <- <-]].
    do 3 (case_decide; [by intros [= <- <-]|]). discriminate.
  - by intros [= <- <-].
Qed.

(** [Student.create] inserts what the model accepts for an account of
    the store that has no profile, under a code that is free. *)
Lemma Student_create_accepted user_id student_code phone db :
  Accepted.profile student_code phone = true →
  user_id ∈ u_id <$> users db →
  user_id ∉ s_user_id <$> students db →
  student_code ∉ s_student_code <$> students db →
  Student_create user_id student_code phone db
  = (inr {| s_id := fresh (s_id <$> students db); s_user_id := user_id;
            s_student_code := student_code; s_phone := phone |},
     {| users := users db;
        students := students db
                    ++ [{| s_id := fresh (s_id <$> students db); s_user_id := user_id;
                           s_student_code := student_code; s_phone := phone |}] |}).
Proof.
  unfold Accepted.profile, Student_create. intros Hacc Hu Hs Hc.
  destruct (notEmpty student_code); [|done]. simpl in *. rewrite Hacc. simpl.
  rewrite !decide_False by done. by rewrite decide_False by (by intros ?).
Qed.

(** With the foreign key in force, the account just inserted has no
    profile yet. *)
Lemma created_has_no_profile db (user : User) :
  fk_ok db → u_id user = fresh (u_id <$> users db) →
  u_id user ∉ s_user_id <$> students db.
Proof.
  intros Hfk Hid (s & Hs & Hin)%list_elem_of_fmap.
  apply Hfk in Hin. rewrite <- Hs, Hid in Hin. by apply fresh_not_in in Hin.
Qed.

(** Destroying the account a transaction has just inserted leaves the
    store as it was before the insert. *)
Lemma User_destroy_created email name password_hash db user db1 db2 :
  fk_ok db →
  User_create email name password_hash "student" db = (inr user, db1) →
  User_destroy user db1 = (inr tt, db2) →
  db2 = db.
Proof.
  intros Hfk (_ & _ & -> & ->)%User_create_inr. unfold User_destroy. simpl.
  intros [= <-]. destruct db as [us ss]. simpl in *. f_equal.
  - rewrite filter_app, filter_cons_False, filter_nil, app_nil_r by (simpl; tauto).
    apply filter_all. intros u Hu Heq. simpl in Heq.
    apply (fresh_not_in (u_id <$> us)). rewrite <- Heq. by apply list_elem_of_fmap_2.
  - apply filter_all. intros s Hs Heq.
    apply (fresh_not_in (u_id <$> us)). rewrite <- Heq. by apply Hfk.
Qed.

End Store.

(** ** A transaction, statement by statement *)

Section Transactions.
Import Db.

Lemma within_transaction {A} (statement : Stmt A) (committed working : Database) :
  within statement {| tx_committed := committed; tx_working := working;
                      tx_aborted := false |}
  = match statement working with
    | (inr a, db) =>
        (inr a, {| tx_committed := committed; tx_working := db; tx_aborted := false |})
    | (inl e, _) =>
        (inl e, {| tx_committed := committed; tx_working := working;
                   tx_aborted := refused_by_database e |})
    end.
Proof. done. Qed.

(** An aborted transaction refuses every statement and commits to the
    store it began with. *)
Lemma within_aborted {A} (statement : Stmt A) t :
  tx_aborted t = true →
  within statement t = (inl (SequelizeDatabaseError "25P02"), t).
Proof. unfold within. by intros ->. Qed.

Lemma commit_aborted t : tx_aborted t = true → commit t = tx_committed t.
Proof. unfold commit. by intros ->. Qed.

End Transactions.


(** ** [processRecord] and the outcomes of a row *)

Section Rows.
Import Db BulkImportService RowSemantics.
Context {lowering : JsString.Lowering} {validators : Validators}.
(** Every run of [processRecord] in a fresh transaction is one of the
    outcomes. *)
Lemma processRecord_row record duplicateInfo strategy db result transaction' :
  processRecord record duplicateInfo strategy (transaction db) = (result, transaction') →
  RowOutcome record duplicateInfo strategy db result transaction'.
Proof.
  unfold processRecord, processRecord_try, findAvailableEmail_call, outside, transaction.
  unfold mbind, mret, Tx_bind, Tx_ret.
  destruct (emailMap duplicateInfo !! JsString.toLowerCase (r_email record))
    as [[user [student|]]|] eqn:He;
  destruct (studentCodeMap duplicateInfo !! r_student_code record) as [c|] eqn:Hc;
  simpl.
  all: try rewrite (bool_decide_eq_true_2 (is_Some (Some _))) by eauto.
  all: try rewrite (bool_decide_eq_false_2 (is_Some None)) by (by intros [? ?]).
  all: simpl; destruct strategy; simpl.
  all: repeat first
    [ rewrite within_transaction
    | match goal with
      | |- context [findAvailableEmail ?a ?b] =>
          destruct (findAvailableEmail a b) as [?|?] eqn:?; simpl
      | |- context [User_create ?a ?b ?c ?d ?e] =>
          destruct (User_create a b c d e) as [[?|?] ?] eqn:?; simpl
      | |- context [Student_create ?a ?b ?c ?d] =>
          destruct (Student_create a b c d) as [[?|?] ?] eqn:?; simpl
      | |- context [User_update_name ?a ?b ?c] =>
          destruct (User_update_name a b c) as [[?|?] ?] eqn:?; simpl
      | |- context [Student_update_phone ?a ?b ?c] =>
          destruct (Student_update_phone a b c) as [[?|?] ?] eqn:?; simpl
      | |- context [User_destroy ?a ?b] =>
          let E := fresh "Hdestroy" in
          destruct (User_destroy a b) as [[?|[]] ?] eqn:E; simpl;
          [by unfold User_destroy in E|]
      end ].
  all: intros [= <- <-].
  all: first
    [ by eapply row_created
    | by eapply row_user_rejected
    | by eapply row_student_rejected
    | by eapply row_skipped;
        [rewrite He, Hc; eauto | done
        |rewrite He; first [by rewrite bool_decide_eq_true_2 by eauto
                           |by rewrite bool_decide_eq_false_2 by (by intros [? ?])]]
    | by eapply row_updated
    | by eapply row_update_user_rejected
    | by eapply row_update_student_rejected
    | by eapply row_update_mismatch; [done|eauto|congruence]
    | by eapply row_suffix_exhausted; eauto
    | by eapply row_suffix_user_rejected; eauto
    | by eapply row_suffix_code_collision; eauto
    | by eapply row_suffix_student_rejected; eauto
    | by eapply row_created_with_suffix; eauto
    | by eapply row_suffix_code_only; eauto
    | idtac ].
Qed.
End Rows.

(** ** The duplicate lookup and the import loop *)

Section ImportFacts.
Import Db BulkImportService.
Context {lowering : JsString.Lowering} {validators : Validators}.

(** [User] registers its profile as [studentProfile], and under no
    other alias. *)
Lemma included_student :
  included "User" "Student" "student" = inl (SequelizeEagerLoadingError "Student" "student").
Proof.
  unfold included. rewrite bool_decide_eq_false_2; [done|].
  unfold associations. rewrite !elem_of_cons, elem_of_nil.
  intros Hin. repeat destruct Hin as [[=]|Hin]. done.
Qed.

Lemma User_findAll_email_in_rejects db emails :
  User_findAll_email_in db emails = inl (SequelizeEagerLoadingError "Student" "student").
Proof. unfold User_findAll_email_in. by rewrite included_student. Qed.

Lemma detectDatabaseDuplicates_rejects db records :
  detectDatabaseDuplicates db records
  = inl (SequelizeEagerLoadingError "Student" "student").
Proof. unfold detectDatabaseDuplicates. by rewrite User_findAll_email_in_rejects. Qed.

(** The slices cover the rows: the bound on their number is never
    reached. *)
Lemma slices_concat fuel : ∀ records,
  (length records ≤ fuel)%nat → concat (slices fuel records) = records.
Proof.
  induction fuel as [|fuel IH]; intros records Hlen.
  - destruct records; [done | simpl in Hlen; lia].
  - destruct records as [|r records]; [done|].
    change (slices (S fuel) (r :: records))
      with (take BATCH_SIZE (r :: records)
            :: slices fuel (drop BATCH_SIZE (r :: records))).
    rewrite concat_cons, IH; [apply take_drop|].
    rewrite length_drop. cbn [length] in *. unfold BATCH_SIZE. lia.
Qed.

(** The import of no row answers with the empty summary. *)
Lemma processBulkImport_nil db strategy :
  processBulkImport db [] strategy
  = (inr {| total := 0; created := 0; updated := 0; skipped := 0; failed := 0;
            details := [] |}, db).
Proof. done. Qed.

(** The import of a row or more rejects at the lookup of its first
    window, before a transaction is opened. *)
Lemma processBulkImport_cons db record records strategy :
  processBulkImport db (record :: records) strategy
  = (inl (SequelizeEagerLoadingError "Student" "student"), db).
Proof.
  unfold processBulkImport.
  change (slices (length (record :: records)) (record :: records))
    with (take BATCH_SIZE (record :: records)
          :: slices (length records) (drop BATCH_SIZE (record :: records))).
  cbn [processBatches]. by rewrite detectDatabaseDuplicates_rejects.
Qed.


(** What an import comes to: the empty summary for no row, the
    rejection of the first lookup for a row or more; the store is as it
    was. *)
Lemma processBulkImport_outcome db records strategy :
  processBulkImport db records strategy
  = match records with
    | [] => (inr {| total := 0; created := 0; updated := 0; skipped := 0;
                    failed := 0; details := [] |}, db)
    | _ :: _ => (inl (SequelizeEagerLoadingError "Student" "student"), db)
    end.
Proof.
  destruct records; [apply processBulkImport_nil|apply processBulkImport_cons].
Qed.

End ImportFacts.

(** ** Lookups in a list of rows *)

Section Lookups.

Lemma find_bool_decide_None {A} (P : A → Prop) `{∀ x, Decision (P x)} (l : list A) :
  List.find (λ x, bool_decide (P x)) l = None ↔ ∀ x, x ∈ l → ¬ P x.
Proof.
  induction l as [|y l IH]; simpl.
  - split; [intros _ x []%elem_of_nil | done].
  - case_bool_decide as Hy.
    + split; [done|]. intros Hall. destruct (Hall y); [left | done].
    + rewrite IH. split.
      * intros Hall x [->|Hx]%elem_of_cons; auto.
      * intros Hall x Hx. apply Hall. by right.
Qed.

Lemma find_bool_decide_Some {A} (P : A → Prop) `{∀ x, Decision (P x)} (l : list A) x :
  List.find (λ x, bool_decide (P x)) l = Some x → x ∈ l ∧ P x.
Proof.
  intros [Hin Hp]%find_some. apply list_elem_of_In in Hin.
  by apply bool_decide_eq_true in Hp.
Qed.

End Lookups.

(** ** The sample stores *)

Section SampleFacts.
Import Db BulkImportService RowSemantics.
Context {lowering : JsString.Lowering} {validators : Validators}.

Lemma fk_ok_empty : fk_ok Sample.empty.
Proof. intros s []%elem_of_nil. Qed.

Lemma fk_ok_john : fk_ok Sample.john.
Proof. intros s ->%list_elem_of_singleton. apply list_elem_of_here. Qed.

Lemma fk_ok_crowded : fk_ok Sample.crowded.
Proof. intros s ->%list_elem_of_singleton. apply list_elem_of_here. Qed.

Lemma crowded_taken (n : nat) :
  (1 ≤ n ≤ 1000)%nat →
  generateEmailWithSuffix "a@x.com" n ∈ u_email <$> users Sample.crowded.
Proof.
  intros Hn. unfold Sample.crowded. cbn [users]. rewrite fmap_cons. right.
  rewrite <- list_fmap_compose. apply list_elem_of_fmap. exists n.
  split; [done|]. apply elem_of_seq. lia.
Qed.

(** With the variants 1 to 1000 of its address taken, a row under
    [suffix] whose email collides fails. *)
Lemma processRecord_suffix_exhausted record duplicateInfo db result transaction' :
  is_Some (emailMap duplicateInfo !! JsString.toLowerCase (r_email record)) →
  (∀ n, (1 ≤ n ≤ 1000)%nat →
        generateEmailWithSuffix (r_email record) n ∈ u_email <$> users db) →
  processRecord record duplicateInfo SUFFIX (transaction db) = (result, transaction') →
  status result = Status.error.
Proof.
  intros [e He] Htaken Hrun%processRecord_row.
  assert (findAvailableEmail db (r_email record)
          = inl ("Could not find available email for " +:+ r_email record)) as Hthrow.
  { unfold findAvailableEmail.
    rewrite findAvailableEmail_loop_throws; [done|lia|lia|].
    intros m Hm. apply Htaken. lia. }
  destruct Hrun; try congruence; done.
Qed.

End SampleFacts.

(** ** What a row leaves in its transaction *)

Section RowFacts.
Import Db BulkImportService RowSemantics.
Context {lowering : JsString.Lowering} {validators : Validators}.

(** What [user.update] leaves: the store as it was when the name is the
    one the instance holds, the name written to the row of its id
    otherwise. *)
Lemma User_update_name_inr user name db user' db' :
  User_update_name user name db = (inr user', db') →
  notEmpty name = true
  ∧ user' = {| u_id := u_id user; u_email := u_email user; u_name := name;
               u_password_hash := u_password_hash user; u_role := u_role user |}
  ∧ db' = (if decide (name = u_name user) then db
           else {| users := (λ u, if decide (u_id u = u_id user)
                                  then {| u_id := u_id u; u_email := u_email u;
                                          u_name := name;
                                          u_password_hash := u_password_hash u;
                                          u_role := u_role u |}
                                  else u) <$> users db;
                   students := students db |}).
Proof.
  unfold User_update_name.
  destruct (notEmpty name); simpl; [|discriminate].
  case_decide as Hsame.
  - intros [= <- <-]. split; [done|]. split; [|done]. rewrite Hsame. by destruct user.
  - destruct (fits 255 name); simpl; [|discriminate]. by intros [= <- <-].
Qed.

Lemma User_update_name_inl user name db e db' :
  User_update_name user name db = (inl e, db') →
  db' = db ∧ (notEmpty name = false ∨ fits 255 name = false).
Proof.
  unfold User_update_name.
  destruct (notEmpty name); simpl; [|intros [= <- <-]; auto].
  case_decide; [discriminate|].
  destruct (fits 255 name); simpl; [discriminate|intros [= <- <-]; auto].
Qed.

(** [user.update] goes through when the validator passes the name and
    the name fits its column. *)
Lemma User_update_name_accepted user name db :
  notEmpty name = true → fits 255 name = true →
  ∃ user' db', User_update_name user name db = (inr user', db').
Proof.
  intros Hn Hf. unfold User_update_name. rewrite Hn, Hf. simpl.
  case_decide; eauto.
Qed.

Lemma Student_update_phone_inr student phone db student' db' :
  Student_update_phone student phone db = (inr student', db') →
  student' = {| s_id := s_id student; s_user_id := s_user_id student;
                s_student_code := s_student_code student; s_phone := phone |}
  ∧ db' = (if decide (phone = s_phone student) then db
           else {| users := users db;
                   students := (λ s, if decide (s_id s = s_id student)
                                     then {| s_id := s_id s; s_user_id := s_user_id s;
                                             s_student_code := s_student_code s;
                                             s_phone := phone |}
                                     else s) <$> students db |}).
Proof.
  unfold Student_update_phone. case_decide as Hsame.
  - intros [= <- <-]. split; [|done]. rewrite Hsame. by destruct student.
  - destruct (fits_or_null 20 phone); simpl; [|discriminate]. by intros [= <- <-].
Qed.

(** [student.update] is refused by the database only. *)
Lemma Student_update_phone_inl student phone db e db' :
  Student_update_phone student phone db = (inl e, db') →
  db' = db ∧ refused_by_database e = true ∧ fits_or_null 20 phone = false.
Proof.
  unfold Student_update_phone. case_decide; [discriminate|].
  destruct (fits_or_null 20 phone); simpl; [discriminate|].
  by intros [= <- <-].
Qed.

(** The pair of inserts of [createStudent] and of a created row, in a
    transaction that begins on [db]: what it answers and the transaction
    it leaves. *)
Lemma create_pair_refused email name password_hash student_code phone db :
  Accepted.account email name && Accepted.profile student_code phone = false →
  ∃ e t,
    (user ← within (User_create email name password_hash "student");
     student ← within (Student_create (u_id user) student_code phone);
     mret student) (transaction db) = (inl e, t)
    ∧ rollback t = db.
Proof.
  intros Hno. unfold mbind, mret, Tx_bind, Tx_ret, transaction.
  rewrite within_transaction.
  destruct (User_create email name password_hash "student" db) as [[e|user] db1] eqn:Hu.
  { by eexists _, _. }
  rewrite within_transaction.
  destruct (Student_create (u_id user) student_code phone db1) as [[e|student] db2] eqn:Hs.
  { by eexists _, _. }
  apply User_create_inr in Hu as (Hu & _). apply Student_create_inr in Hs as (Hs & _).
  rewrite Hu, Hs in Hno. discriminate.
Qed.

Lemma create_pair_accepted email name password_hash student_code phone db :
  fk_ok db →
  Accepted.account email name = true →
  Accepted.profile student_code phone = true →
  email ∉ u_email <$> users db →
  student_code ∉ s_student_code <$> students db →
  let user := {| u_id := fresh (u_id <$> users db); u_email := email; u_name := name;
                 u_password_hash := password_hash; u_role := "student" |} in
  let student := {| s_id := fresh (s_id <$> students db); s_user_id := u_id user;
                    s_student_code := student_code; s_phone := phone |} in
  User_create email name password_hash "student" db
  = (inr user, {| users := users db ++ [user]; students := students db |})
  ∧ Student_create (u_id user) student_code phone
      {| users := users db ++ [user]; students := students db |}
    = (inr student,
       {| users := users db ++ [user]; students := students db ++ [student] |}).
Proof.
  intros Hfk Hu Hs He Hc user student.
  split; [by apply User_create_accepted|].
  apply (Student_create_accepted (u_id user) student_code phone
           {| users := users db ++ [user]; students := students db |});
    simpl; [done| | |done].
  - rewrite fmap_app. apply elem_of_app. right. left.
  - by apply (created_has_no_profile db user).
Qed.

(** A row that fails, its student code passing [notEmpty], leaves a
    transaction whose commit is the store the row began on: the failure
    came before the first write of the row, or from the database, which
    then aborts the transaction. *)
Lemma RowOutcome_error_commit row duplicateInfo strategy db result transaction' :
  notEmpty (r_student_code row) = true →
  RowOutcome row duplicateInfo strategy db result transaction' →
  status result = Status.error →
  commit transaction' = db.
Proof.
  intros Hcode Hrun Hst.
  destruct Hrun; try discriminate Hst; unfold commit; simpl.
  all: repeat match goal with
    | Hs : Student_create _ _ _ _ = (inl _, _) |- _ =>
        apply Student_create_inl in Hs as [_ Hs]
    | Hs : Student_update_phone _ _ _ = (inl _, _) |- _ =>
        apply Student_update_phone_inl in Hs as (_ & -> & _)
    end.
  all: try done.
  all: destruct (refused_by_database _); try done.
  all: match goal with Hs : _ → notEmpty _ = false |- _ =>
         rewrite Hs in Hcode by done; done end.
Qed.

End RowFacts.

(** ** One row: credentials, updates, failures, suffix collisions *)

Section RowClaims.
Import Db BulkImportService RowSemantics.
Context {lowering : JsString.Lowering} {validators : Validators}.

(** C10: a row that is created ([created] or [created_with_suffix]) adds
    one account, with role ['student'] and the bcrypt hash (cost 10) of
    the default password ['student123'] when the row has no password, of
    the row's password when it has one. *)
Theorem default_credentials record duplicateInfo strategy db result transaction' :
  processRecord record duplicateInfo strategy (transaction db) = (result, transaction') →
  status result = Status.created ∨ status result = Status.created_with_suffix →
  ∃ user,
    users (commit transaction') = users db ++ [user]
    ∧ u_email user = rec_email (BulkImportService.record result)
    ∧ u_role user = "student"
    ∧ (r_password record = None → u_password_hash user = bcrypt_hash "student123" 10)
    ∧ (∀ p, r_password record = Some p → p ≠ "" →
            u_password_hash user = bcrypt_hash p 10).
Proof.
  intros Hrun%processRecord_row Hst.
  destruct Hrun; simpl in Hst; try (destruct Hst; discriminate).
  all: repeat match goal with
    | Hu : User_create _ _ _ _ _ = (inr _, _) |- _ =>
        apply User_create_inr in Hu as (_ & _ & -> & ->)
    | Hs : Student_create _ _ _ _ = (inr _, _) |- _ =>
        apply Student_create_inr in Hs as (_ & _ & _ & _ & -> & ->)
    end; simpl.
  all: eexists; split; [reflexivity|]; simpl; repeat split.
  all: try (by intros ->).
  all: intros p -> Hp; by destruct p.
Qed.

(** C9: a row whose outcome is [updated] has found under its lowercased
    email, in the index it was given, an account with its profile; every
    account of the store keeps its id, email, password hash and role and
    every profile its id, account and student code (a name and a phone
    are all that can change); and every account with another id than
    the account found, and every profile with another id than its
    profile, is left exactly as it was. *)
Theorem update_frame record duplicateInfo strategy db result transaction' :
  processRecord record duplicateInfo strategy (transaction db) = (result, transaction') →
  status result = Status.updated →
  ∃ user student,
    emailMap duplicateInfo !! JsString.toLowerCase (r_email record)
      = Some {| ex_user := user; ex_student := Some student |}
    ∧ Forall2 (λ u u', u_id u' = u_id u ∧ u_email u' = u_email u
                       ∧ u_password_hash u' = u_password_hash u
                       ∧ u_role u' = u_role u
                       ∧ (u_id u ≠ u_id user → u' = u))
        (users db) (users (commit transaction'))
    ∧ Forall2 (λ s s', s_id s' = s_id s ∧ s_user_id s' = s_user_id s
                       ∧ s_student_code s' = s_student_code s
                       ∧ (s_id s ≠ s_id student → s' = s))
        (students db) (students (commit transaction')).
Proof.
  intros Hrun%processRecord_row Hst.
  destruct Hrun as [| | | |user student user' db1 student' db2 _ Hemail Hu Hs| | | | | | | | |];
    try discriminate Hst.
  exists user, student. split; [done|].
  apply User_update_name_inr in Hu as (_ & _ & ->).
  apply Student_update_phone_inr in Hs as (_ & ->). unfold commit. simpl.
  split; repeat case_decide; simpl.
  all: first [ by apply Forall_Forall2_diag, Forall_forall
             | apply Forall2_fmap_r, Forall_Forall2_diag, Forall_forall; intros x _;
               simpl; case_decide; simpl; tauto ].
Qed.


(** C5, as the code has it: a row under [suffix] whose email and student
    code are both in the index leaves the store as it was.  It is
    [skipped] with the code-collision message, the suffixed account
    inserted and destroyed again, when [findAvailableEmail] returns an
    address and the [User] model accepts the account under it; it fails
    when the model refuses the account, and with the error of
    [findAvailableEmail] when the variants 1 to 1000 are all taken. *)
Theorem suffix_code_collision_aborts record duplicateInfo db result transaction' :
  fk_ok db →
  is_Some (emailMap duplicateInfo !! JsString.toLowerCase (r_email record)) →
  is_Some (studentCodeMap duplicateInfo !! r_student_code record) →
  processRecord record duplicateInfo SUFFIX (transaction db) = (result, transaction') →
  commit transaction' = db
  ∧ match findAvailableEmail db (r_email record) with
    | inr newEmail =>
        if Accepted.account newEmail (r_name record)
        then status result = Status.skipped
             ∧ message result
               = text "Student code already exists - cannot create with suffix"
        else status result = Status.error
    | inl reason => status result = Status.error ∧ message result = text reason
    end.
Proof.
  intros Hfk [e He] [c Hc] Hrun%processRecord_row.
  destruct Hrun as [? ? ? ? E|? ? E|? ? ? ? E|? ? E|? ? ? ? ? ? E|? ? ? ? E
                    |? ? ? ? ? ? E|E|? _ _ Ha
                    |newEmail ? ? _ _ Ha Hu|newEmail user db1 db2 _ _ _ Ha Hu Hd
                    |? ? ? ? ? _ _ E|? ? ? ? ? _ _ E|_ E];
    try congruence.
  - rewrite Ha. by unfold commit.
  - rewrite Ha. apply findAvailableEmail_free in Ha.
    apply User_create_inl in Hu as [_ [->|Hin]]; [|done].
    split; [|done]. unfold commit. simpl. by destruct (refused_by_database _).
  - rewrite Ha. pose proof Hu as (-> & _)%User_create_inr.
    split; [|done]. unfold commit. simpl. eapply User_destroy_created; eauto.
Qed.

(** C3, as the code has it: under [update], a row whose lowercased email
    the index holds with a profile is written and reported [updated]
    whatever the student code of that profile: the code of the row is
    compared with nothing.  When the name of the row is not the one the
    account found has, that account is renamed. *)
Theorem update_ignores_code_mismatch record duplicateInfo db user student :
  emailMap duplicateInfo !! JsString.toLowerCase (r_email record)
    = Some {| ex_user := user; ex_student := Some student |} →
  notEmpty (r_name record) = true →
  fits 255 (r_name record) = true →
  fits_or_null 20 (or_else (r_phone record) (s_phone student)) = true →
  let run := processRecord record duplicateInfo UPDATE (transaction db) in
  status run.1 = Status.updated
  ∧ message run.1 = text "Student updated successfully"
  ∧ (r_name record ≠ u_name user →
     users (commit run.2)
     = (λ u, if decide (u_id u = u_id user)
             then {| u_id := u_id u; u_email := u_email u; u_name := r_name record;
                     u_password_hash := u_password_hash u; u_role := u_role u |}
             else u) <$> users db).
Proof.
  intros He Hname Hfit Hphone run.
  pose proof (processRecord_row record duplicateInfo UPDATE db run.1 run.2
                (surjective_pairing _)) as Hrun.
  destruct Hrun as [? ? ? ? E| |? ? ? ? E| |u s u' db1 s' db2 _ E Hu Hs
                    |u s e db1 _ E Hu|u s u' db1 e db2 _ E Hu Hs|_ _ E| | | | | |];
    try congruence; try discriminate.
  - split; [done|]. split; [done|]. rewrite He in E. injection E as <- <-.
    intros Hnew.
    apply User_update_name_inr in Hu as (_ & _ & ->).
    apply Student_update_phone_inr in Hs as (_ & ->). unfold commit. simpl.
    repeat case_decide; simpl; done.
  - apply User_update_name_inl in Hu as [_ [Hu|Hu]]; congruence.
  - rewrite He in E. injection E as <- <-.
    apply Student_update_phone_inl in Hs as (_ & _ & Hs). congruence.
Qed.

End RowClaims.

Section RowExamples.
Import Db BulkImportService.
Local Existing Instance Sample.lowering.
Local Existing Instance Sample.validators.

Lemma default_credentials_witness :
  ∃ user,
    users (commit (processRecord Sample.john_row Sample.no_index SKIP
                     (transaction Sample.empty)).2) = [user]
    ∧ u_role user = "student"
    ∧ u_password_hash user = bcrypt_hash "student123" 10.
Proof.
  destruct (default_credentials Sample.john_row Sample.no_index
              SKIP Sample.empty _ _ (surjective_pairing _))
    as (user & Hu & _ & Hrole & Hdefault & _).
  - left. vm_compute. reflexivity.
  - exists user. split; [exact Hu|]. split; [exact Hrole|]. by apply Hdefault.
Defined.

Lemma update_frame_witness :
  let run := processRecord Sample.john_update Sample.john_index UPDATE
               (transaction Sample.john) in
  status run.1 = Status.updated
  ∧ u_name <$> users (commit run.2) = ["John Updated"]
  ∧ ∃ user student,
      Forall2 (λ u u', u_id u' = u_id u ∧ u_email u' = u_email u
                       ∧ u_password_hash u' = u_password_hash u
                       ∧ u_role u' = u_role u
                       ∧ (u_id u ≠ u_id user → u' = u))
        (users Sample.john) (users (commit run.2))
      ∧ Forall2 (λ s s', s_id s' = s_id s ∧ s_user_id s' = s_user_id s
                         ∧ s_student_code s' = s_student_code s
                         ∧ (s_id s ≠ s_id student → s' = s))
          (students Sample.john) (students (commit run.2)).
Proof.
  intros run.
  assert (status run.1 = Status.updated) as Hst by (vm_compute; reflexivity).
  split; [exact Hst|]. split; [vm_compute; reflexivity|].
  destruct (update_frame Sample.john_update Sample.john_index UPDATE Sample.john
              run.1 run.2 (surjective_pairing _) Hst)
    as (user & student & _ & Husers & Hstudents).
  exists user, student. split; [exact Husers|exact Hstudents].
Defined.



Lemma suffix_code_collision_aborts_witness :
  let run := processRecord Sample.jane_as_john Sample.john_index SUFFIX
               (transaction Sample.john) in
  commit run.2 = Sample.john ∧ status run.1 = Status.skipped.
Proof.
  intros run.
  destruct (suffix_code_collision_aborts Sample.jane_as_john Sample.john_index
              Sample.john run.1 run.2) as [Hdb Hres].
  - apply fk_ok_john.
  - apply (bool_decide_eq_true_1 _). vm_compute. reflexivity.
  - apply (bool_decide_eq_true_1 _). vm_compute. reflexivity.
  - apply surjective_pairing.
  - split; [exact Hdb|]. exact (proj1 Hres).
Defined.

(** C5 as stated fails, twice.  Ann's address and code are both in
    the index and every variant of her address is taken: the row is not
    [skipped] but fails with the error of [findAvailableEmail].  Lee's
    address and code are both in the index and the first variant of the
    address is free, but its local part has 65 characters and [isEmail]
    refuses it: the row fails with the validation error. *)
Lemma suffix_code_collision_can_fail :
  (is_Some (emailMap Sample.ann_index
              !! JsString.toLowerCase (r_email Sample.ann_row))
   ∧ is_Some (studentCodeMap Sample.ann_index !! r_student_code Sample.ann_row)
   ∧ status (processRecord Sample.ann_row Sample.ann_index SUFFIX
               (transaction Sample.crowded)).1 = Status.error
   ∧ status (processRecord Sample.ann_row Sample.ann_index SUFFIX
               (transaction Sample.crowded)).1 ≠ Status.skipped)
  ∧ (is_Some (emailMap Sample.lee_index
                !! JsString.toLowerCase (r_email Sample.lee_row))
     ∧ is_Some (studentCodeMap Sample.lee_index !! r_student_code Sample.lee_row)
     ∧ (processRecord Sample.lee_row Sample.lee_index SUFFIX
          (transaction Sample.lee)).1
       = {| status := Status.error; record := brief Sample.lee_row;
            message := message_of (SequelizeValidationError [("email", "isEmail")]) |}).
Proof.
  split.
  - assert (is_Some (emailMap Sample.ann_index
                       !! JsString.toLowerCase (r_email Sample.ann_row))) as He.
    { apply (bool_decide_eq_true_1 _). vm_compute. reflexivity. }
    split; [exact He|]. split.
    { apply (bool_decide_eq_true_1 _). vm_compute. reflexivity. }
    assert (status (processRecord Sample.ann_row Sample.ann_index SUFFIX
                      (transaction Sample.crowded)).1 = Status.error) as Hst.
    { eapply processRecord_suffix_exhausted; [exact He| |apply surjective_pairing].
      intros n Hn. by apply crowded_taken. }
    split; [exact Hst|]. intros Hskipped. rewrite Hst in Hskipped. discriminate.
  - split; [apply (bool_decide_eq_true_1 _); vm_compute; reflexivity|].
    split; [apply (bool_decide_eq_true_1 _); vm_compute; reflexivity|].
    vm_compute. reflexivity.
Qed.

(** John is stored with the code [S1]; Jane comes under his address
    with the code [S2], and John's account is renamed. *)
Lemma update_ignores_code_mismatch_witness :
  let run := processRecord Sample.jane_row Sample.john_index UPDATE
               (transaction Sample.john) in
  s_student_code <$> students Sample.john = ["S1"]
  ∧ r_student_code Sample.jane_row = "S2"
  ∧ status run.1 = Status.updated
  ∧ u_name <$> users (commit run.2) = ["Jane"].
Proof.
  intros run. split; [reflexivity|]. split; [reflexivity|].
  destruct (update_ignores_code_mismatch Sample.jane_row Sample.john_index Sample.john
              (Sample.account 1 "j@x.com" "John") (Sample.profile 1 1 "S1"))
    as (Hst & _ & Husers).
  - vm_compute. reflexivity.
  - reflexivity.
  - reflexivity.
  - reflexivity.
  - split; [exact Hst|]. fold run in Husers. rewrite Husers; [reflexivity|].
    discriminate.
Defined.

End RowExamples.

Section SuffixClaim.
Import Db BulkImportService.

(** C6: for a base address [local@domain], [findAvailableEmail] returns
    [local_n@domain] for the smallest [n >= 1] whose variant no account
    holds, and throws when the variants for [n = 1 .. 1000] are all
    taken. *)
Theorem findAvailableEmail_smallest_free db localPart domain :
  JsString.contains "@" localPart = false →
  JsString.contains "@" domain = false →
  let email := localPart +:+ "@" +:+ domain in
  let variant (n : nat) := localPart +:+ "_" +:+ pretty n +:+ "@" +:+ domain in
  let taken (n : nat) := variant n ∈ u_email <$> users db in
  (∀ n, (1 ≤ n ≤ 1000)%nat → ¬ taken n → (∀ m, (1 ≤ m < n)%nat → taken m) →
        findAvailableEmail db email = inr (variant n))
  ∧ ((∀ n, (1 ≤ n ≤ 1000)%nat → taken n) →
     findAvailableEmail db email
     = inl ("Could not find available email for " +:+ email)).
Proof.
  intros Hl Hd email variant taken.
  assert (∀ n, generateEmailWithSuffix email n = variant n) as Hgen.
  { intros n. by apply generateEmailWithSuffix_local_domain. }
  unfold findAvailableEmail. split.
  - intros n Hn Hfree Htaken.
    rewrite (findAvailableEmail_loop_returns db email n); [by rewrite Hgen|lia| |lia|lia|].
    + by rewrite Hgen.
    + intros m Hm. rewrite Hgen. by apply Htaken.
  - intros Htaken.
    rewrite findAvailableEmail_loop_throws; [done|lia|lia|].
    intros m Hm. rewrite Hgen. apply Htaken. lia.
Qed.

Lemma findAvailableEmail_smallest_free_witness :
  findAvailableEmail Sample.john_and_j1 "j@x.com" = inr "j_2@x.com".
Proof.
  refine (proj1 (findAvailableEmail_smallest_free Sample.john_and_j1 "j" "x.com"
                   eq_refl eq_refl) 2 _ _ _).
  - lia.
  - apply (bool_decide_eq_false_1 _). vm_compute. reflexivity.
  - intros m Hm. assert (m = 1)%nat as -> by lia.
    apply (bool_decide_eq_true_1 _). vm_compute. reflexivity.
Defined.

End SuffixClaim.

Section PrecheckClaim.
Import CsvService InternalDuplicateSpec BulkImportService StudentController.
Context {lowering : JsString.Lowering} {validators : Validators}.

(** C7: [detectInternalDuplicates] reports, for each row and each of the
    two fields, a duplicate exactly when the row's lowercased email (its
    student code) occurred in an earlier row, naming the first such row;
    and when there is any, [bulkImport] rejects the call and the store
    is as it was. *)
Theorem internal_duplicates_fail_fast (records : list CsvRecord) :
  duplicates (detectInternalDuplicates records) = expectedDuplicates [] records
  ∧ (hasDuplicates (detectInternalDuplicates records) = true
     ↔ expectedDuplicates [] records ≠ [])
  ∧ ∀ db strategy,
      expectedDuplicates [] records ≠ [] →
      bulkImport db records strategy
      = (db, ApiError 400 "INTERNAL_DUPLICATES" (expectedDuplicates [] records)).
Proof.
  split; [apply detectInternalDuplicates_expected|].
  split; [apply hasDuplicates_expected|].
  intros db strategy Hdup. unfold bulkImport.
  destruct records as [|r rest]; [done|]. simpl length. simpl Nat.eqb.
  apply hasDuplicates_expected in Hdup as ->.
  by rewrite detectInternalDuplicates_expected.
Qed.

End PrecheckClaim.

Section PrecheckExample.
Import CsvService InternalDuplicateSpec BulkImportService StudentController.
Local Existing Instance Sample.lowering.
Local Existing Instance Sample.validators.

Lemma internal_duplicates_fail_fast_witness :
  ∃ found,
    bulkImport Sample.empty
      [Sample.row "John" "J@x.com" "S1" 1; Sample.row "Jane" "j@x.com" "S2" 2] SKIP
    = (Sample.empty, ApiError 400 "INTERNAL_DUPLICATES" found)
    ∧ duplicateOf <$> found = [1%nat].
Proof.
  eexists. split.
  - apply (proj2 (proj2 (internal_duplicates_fail_fast _))). vm_compute. discriminate.
  - vm_compute. reflexivity.
Defined.

End PrecheckExample.

(** ** Whole imports *)

Section ImportClaims.
Import Db BulkImportService.
Context {lowering : JsString.Lowering} {validators : Validators}.


(** C2, as the code has it: the import of two rows is rejected at the
    lookup of its window, before the first row: it returns no summary,
    so neither one [created] and one [skipped] nor any other count, and
    the store is as it was. *)
Theorem same_email_rows_are_not_imported db first second :
  processBulkImport db [first; second] SKIP
  = (inl (SequelizeEagerLoadingError "Student" "student"), db).
Proof. apply processBulkImport_cons. Qed.


End ImportClaims.

Section ImportExamples.
Import Db BulkImportService.
Local Existing Instance Sample.lowering.
Local Existing Instance Sample.validators.


End ImportExamples.

(** ** The duplicate lookup and whole imports *)

Section ImportExtras.
Import Db BulkImportService.
Context {lowering : JsString.Lowering} {validators : Validators}.

(** X6: [detectDatabaseDuplicates] rejects, whatever the store and the
    rows: its first query includes the profile of an account under the
    alias [student], and [User] registers it as [studentProfile].  The
    alias of the second query, [user], is the one [Student] registers;
    that query is never reached. *)
Theorem duplicate_lookup_rejects db records :
  detectDatabaseDuplicates db records
  = inl (SequelizeEagerLoadingError "Student" "student")
  ∧ (("User", "Student", "student") ∉ associations)
  ∧ (("User", "Student", "studentProfile") ∈ associations)
  ∧ (("Student", "User", "user") ∈ associations).
Proof.
  split; [apply detectDatabaseDuplicates_rejects|]. split.
  - pose proof included_student as Hinc. unfold included in Hinc.
    case_bool_decide; [discriminate|done].
  - split; [apply list_elem_of_here|]. do 7 apply list_elem_of_further.
    apply list_elem_of_here.
Qed.

(** X1: [processBulkImport] returns a summary for the empty row set
    only, and that summary is empty; for every other row set it rejects
    with the error of the first lookup, before any transaction is
    opened.  In both cases the store is as it was. *)
Theorem import_returns_for_no_row_only db records strategy :
  processBulkImport db records strategy
  = match records with
    | [] => (inr {| total := 0; created := 0; updated := 0; skipped := 0;
                    failed := 0; details := [] |}, db)
    | _ :: _ => (inl (SequelizeEagerLoadingError "Student" "student"), db)
    end.
Proof. apply processBulkImport_outcome. Qed.

End ImportExtras.

(** ** What one row comes to, by the index it is given *)

Section RowDecisions.
Import Db BulkImportService RowSemantics.
Context {lowering : JsString.Lowering} {validators : Validators}.

(** X8: whatever the strategy, a row whose lowercased email and whose
    student code the index does not hold is inserted as it is written.
    On a store that keeps the foreign key it is [created], its account
    and its profile added, when the two models accept its values and
    neither its email nor its code is stored; in every other case it
    fails, and nothing of it persists when its code passes
    [notEmpty]. *)
Theorem unmatched_row_is_created strategy record duplicateInfo db :
  fk_ok db →
  emailMap duplicateInfo !! JsString.toLowerCase (r_email record) = None →
  studentCodeMap duplicateInfo !! r_student_code record = None →
  let run := processRecord record duplicateInfo strategy (transaction db) in
  let user :=
    {| u_id := fresh (u_id <$> users db); u_email := r_email record;
       u_name := r_name record;
       u_password_hash :=
         bcrypt_hash (default "student123" (or_else (r_password record) None)) 10;
       u_role := "student" |} in
  let student :=
    {| s_id := fresh (s_id <$> students db); s_user_id := u_id user;
       s_student_code := r_student_code record;
       s_phone := or_else (r_phone record) None |} in
  if Accepted.account (r_email record) (r_name record)
     && Accepted.profile (r_student_code record) (or_else (r_phone record) None)
     && bool_decide (r_email record ∉ u_email <$> users db)
     && bool_decide (r_student_code record ∉ s_student_code <$> students db)
  then run.1 = {| status := Status.created; record := full user student None;
                  message := text "Student created successfully" |}
       ∧ commit run.2
         = {| users := users db ++ [user]; students := students db ++ [student] |}
  else status run.1 = Status.error
       ∧ (notEmpty (r_student_code record) = true → commit run.2 = db).
Proof.
  intros Hfk He Hc run user student.
  pose proof (processRecord_row record duplicateInfo strategy db run.1 run.2
                (surjective_pairing _)) as Hrun.
  destruct (Accepted.account _ _ && Accepted.profile _ _ && bool_decide _ && bool_decide _)
    eqn:Hok.
  - apply andb_true_iff in Hok as [[[Hu Hs]%andb_true_iff Hfe%bool_decide_eq_true]%andb_true_iff
                                   Hfc%bool_decide_eq_true].
    destruct (create_pair_accepted (r_email record) (r_name record)
                (bcrypt_hash (default "student123" (or_else (r_password record) None)) 10)
                (r_student_code record) (or_else (r_phone record) None) db)
      as [Hcu Hcs]; [done..|].
    fold user in Hcu, Hcs. fold student in Hcs.
    destruct Hrun;
      repeat match goal with
      | H : is_Some _ ∨ is_Some _ |- _ => rewrite He, Hc in H; destruct H as [[? [=]]|[? [=]]]
      | H : is_Some _ |- _ => first [rewrite He in H|rewrite Hc in H]; destruct H as [? [=]]
      | H : emailMap _ !! _ = Some _ |- _ => rewrite He in H; discriminate H
      | H : User_create _ _ _ _ _ = (inl _, _) |- _ => rewrite Hcu in H; discriminate H
      | H : User_create _ _ _ _ _ = (inr _, _) |- _ =>
          rewrite Hcu in H; injection H as <- <-
      | H : Student_create _ _ _ _ = (inl _, _) |- _ => rewrite Hcs in H; discriminate H
      | H : Student_create _ _ _ _ = (inr _, _) |- _ =>
          rewrite Hcs in H; injection H as <- <-
      end.
    by unfold commit.
  - split.
    + destruct Hrun; try done;
        repeat match goal with
        | H : is_Some _ ∨ is_Some _ |- _ =>
            rewrite He, Hc in H; destruct H as [[? [=]]|[? [=]]]
        | H : is_Some _ |- _ =>
            first [rewrite He in H|rewrite Hc in H]; destruct H as [? [=]]
        | H : emailMap _ !! _ = Some _ |- _ => rewrite He in H; discriminate H
        end.
      exfalso.
      repeat match goal with
        | H : User_create _ _ _ _ _ = (inr _, _) |- _ =>
            apply User_create_inr in H as (Hu & Hfe & -> & ->)
        | H : Student_create _ _ _ _ = (inr _, _) |- _ =>
            apply Student_create_inr in H as (Hs & _ & _ & Hfc & _)
        end.
      simpl in Hfc. rewrite Hu, Hs in Hok. simpl in Hok.
      by rewrite !bool_decide_eq_true_2 in Hok.
    + intros Hcode. destruct (status run.1) eqn:Hst.
      5: by eapply RowOutcome_error_commit.
      all: exfalso; destruct Hrun; try discriminate Hst;
        repeat match goal with
        | H : is_Some _ ∨ is_Some _ |- _ =>
            rewrite He, Hc in H; destruct H as [[? [=]]|[? [=]]]
        | H : is_Some _ |- _ =>
            first [rewrite He in H|rewrite Hc in H]; destruct H as [? [=]]
        | H : emailMap _ !! _ = Some _ |- _ => rewrite He in H; discriminate H
        end.
      repeat match goal with
        | H : User_create _ _ _ _ _ = (inr _, _) |- _ =>
            apply User_create_inr in H as (Hu & Hfe & -> & ->)
        | H : Student_create _ _ _ _ = (inr _, _) |- _ =>
            apply Student_create_inr in H as (Hs & _ & _ & Hfc & _)
        end.
      simpl in Hfc. rewrite Hu, Hs in Hok. simpl in Hok.
      by rewrite !bool_decide_eq_true_2 in Hok.
Qed.

(** X9: under [skip] a row is skipped exactly when the index holds its
    lowercased email or its student code; no statement is then run, and
    the message names the email when the email is held, the student code
    otherwise. *)
Theorem skip_decides_by_the_index record duplicateInfo db :
  let run := processRecord record duplicateInfo SKIP (transaction db) in
  let byEmail := emailMap duplicateInfo !! JsString.toLowerCase (r_email record) in
  let byCode := studentCodeMap duplicateInfo !! r_student_code record in
  (status run.1 = Status.skipped ↔ is_Some byEmail ∨ is_Some byCode)
  ∧ (is_Some byEmail →
     run = ({| status := Status.skipped; record := brief record;
               message := text "Email already exists" |}, transaction db))
  ∧ (byEmail = None → is_Some byCode →
     run = ({| status := Status.skipped; record := brief record;
               message := text "Student code already exists" |}, transaction db)).
Proof.
  intros run byEmail byCode.
  pose proof (processRecord_row record duplicateInfo SKIP db run.1 run.2
                (surjective_pairing _)) as Hrun.
  assert (is_Some byEmail ∨ is_Some byCode →
          run = ({| status := Status.skipped; record := brief record;
                    message := text (if bool_decide (is_Some byEmail)
                                     then "Email already exists"
                                     else "Student code already exists") |},
                 transaction db)) as Hskip.
  { intros Hany. rewrite (surjective_pairing run).
    destruct Hrun; try discriminate;
      repeat match goal with
      | H : emailMap _ !! _ = None |- _ => fold byEmail in H
      | H : studentCodeMap _ !! _ = None |- _ => fold byCode in H
      end.
    - destruct Hany as [[? Hx]|[? Hx]]; congruence.
    - destruct Hany as [[? Hx]|[? Hx]]; congruence.
    - destruct Hany as [[? Hx]|[? Hx]]; congruence.
    - subst. done. }
  split; [split|split].
  - intros Hst. destruct Hrun; try discriminate; done.
  - intros Hany. by rewrite (Hskip Hany).
  - intros Hyes. rewrite Hskip by auto. by rewrite bool_decide_eq_true_2.
  - intros Hno Hyes. rewrite Hskip by auto.
    rewrite bool_decide_eq_false_2; [done|]. rewrite Hno. by intros [? ?].
Qed.

(** X27: under every strategy, a row whose student code the index holds
    and whose lowercased email it does not is skipped, and no statement
    is run: [Student code already exists] under [skip] and [suffix], the
    mismatch message under [update]. *)
Theorem code_only_collision_is_skipped strategy record duplicateInfo db :
  emailMap duplicateInfo !! JsString.toLowerCase (r_email record) = None →
  is_Some (studentCodeMap duplicateInfo !! r_student_code record) →
  processRecord record duplicateInfo strategy (transaction db)
  = ({| status := Status.skipped; record := brief record;
        message := text (match strategy with
                         | UPDATE => "Email and student code mismatch - cannot update"
                         | _ => "Student code already exists"
                         end) |},
     transaction db).
Proof.
  intros He [c Hc].
  pose proof (processRecord_row record duplicateInfo strategy db _ _
                (surjective_pairing _)) as Hrun.
  rewrite (surjective_pairing (processRecord _ _ _ _)).
  destruct Hrun; subst;
    repeat match goal with
    | H : is_Some (emailMap _ !! _) |- _ => rewrite He in H; destruct H as [? [=]]
    | H : emailMap _ !! _ = Some _ |- _ => rewrite He in H; discriminate H
    | H : studentCodeMap _ !! _ = None |- _ => rewrite Hc in H; discriminate H
    end; try done.
  rewrite bool_decide_eq_false_2; [done|]. rewrite He. by intros [? ?].
Qed.

End RowDecisions.

Section SuffixDecision.
Import Db BulkImportService RowSemantics.
Context {lowering : JsString.Lowering} {validators : Validators}.

(** X10: under [suffix], a row whose lowercased email the index holds
    and whose student code it does not is inserted under the first
    variant [local_n@domain] of its address that no account holds
    ([n] from 1 to 1000).  On a store that keeps the foreign key it is
    [created_with_suffix], the result showing the variant and the
    address as written, when the [User] model accepts the account under
    the variant, the [Student] model the profile, and the code is not
    stored; otherwise it fails. *)
Theorem suffix_creates_under_first_free_variant record duplicateInfo db
    localPart domain n :
  fk_ok db →
  JsString.contains "@" localPart = false →
  JsString.contains "@" domain = false →
  r_email record = localPart +:+ "@" +:+ domain →
  is_Some (emailMap duplicateInfo !! JsString.toLowerCase (r_email record)) →
  studentCodeMap duplicateInfo !! r_student_code record = None →
  let variant (m : nat) := localPart +:+ "_" +:+ pretty m +:+ "@" +:+ domain in
  (1 ≤ n ≤ 1000)%nat →
  variant n ∉ u_email <$> users db →
  (∀ m, (1 ≤ m < n)%nat → variant m ∈ u_email <$> users db) →
  let run := processRecord record duplicateInfo SUFFIX (transaction db) in
  let user :=
    {| u_id := fresh (u_id <$> users db); u_email := variant n;
       u_name := r_name record;
       u_password_hash :=
         bcrypt_hash (default "student123" (or_else (r_password record) None)) 10;
       u_role := "student" |} in
  let student :=
    {| s_id := fresh (s_id <$> students db); s_user_id := u_id user;
       s_student_code := r_student_code record;
       s_phone := or_else (r_phone record) None |} in
  if Accepted.account (variant n) (r_name record)
     && Accepted.profile (r_student_code record) (or_else (r_phone record) None)
     && bool_decide (r_student_code record ∉ s_student_code <$> students db)
  then run.1 = {| status := Status.created_with_suffix;
                  record := full user student (Some (r_email record));
                  message := text ("Student created with email suffix: " +:+ variant n) |}
       ∧ commit run.2
         = {| users := users db ++ [user]; students := students db ++ [student] |}
  else status run.1 = Status.error.
Proof.
  intros Hfk Hl Hd Hemail [e He] Hc variant Hn Hfree Htaken run user student.
  assert (∀ m, generateEmailWithSuffix (r_email record) m = variant m) as Hgen.
  { intros m. rewrite Hemail. by apply generateEmailWithSuffix_local_domain. }
  assert (findAvailableEmail db (r_email record) = inr (variant n)) as Hfind.
  { rewrite <- Hgen. apply findAvailableEmail_first_free; [done|by rewrite Hgen|].
    intros m Hm. rewrite Hgen. by apply Htaken. }
  pose proof (processRecord_row record duplicateInfo SUFFIX db run.1 run.2
                (surjective_pairing _)) as Hrun.
  destruct (Accepted.account _ _ && Accepted.profile _ _ && bool_decide _) eqn:Hok.
  - apply andb_true_iff in Hok as [[Hu Hs]%andb_true_iff Hfc%bool_decide_eq_true].
    destruct (create_pair_accepted (variant n) (r_name record)
                (bcrypt_hash (default "student123" (or_else (r_password record) None)) 10)
                (r_student_code record) (or_else (r_phone record) None) db)
      as [Hcu Hcs]; [done..|].
    fold user in Hcu, Hcs. fold student in Hcs.
    destruct Hrun; try discriminate;
      repeat match goal with
      | H : emailMap _ !! _ = None |- _ => rewrite He in H; discriminate H
      | H : is_Some (studentCodeMap _ !! _) |- _ => rewrite Hc in H; destruct H as [? [=]]
      | H : findAvailableEmail _ _ = inl _ |- _ => rewrite Hfind in H; discriminate H
      | H : findAvailableEmail _ _ = inr _ |- _ => rewrite Hfind in H; injection H as <-
      | H : User_create _ _ _ _ _ = (inl _, _) |- _ => rewrite Hcu in H; discriminate H
      | H : User_create _ _ _ _ _ = (inr _, _) |- _ =>
          rewrite Hcu in H; injection H as <- <-
      | H : Student_create _ _ _ _ = (inl _, _) |- _ => rewrite Hcs in H; discriminate H
      | H : Student_create _ _ _ _ = (inr _, _) |- _ =>
          rewrite Hcs in H; injection H as <- <-
      end.
    by unfold commit.
  - destruct Hrun; try discriminate; try done;
      repeat match goal with
      | H : emailMap _ !! _ = None |- _ => rewrite He in H; discriminate H
      | H : is_Some (studentCodeMap _ !! _) |- _ => rewrite Hc in H; destruct H as [? [=]]
      | H : findAvailableEmail _ _ = inr _ |- _ => rewrite Hfind in H; injection H as <-
      end.
    exfalso.
    repeat match goal with
      | H : User_create _ _ _ _ _ = (inr _, _) |- _ =>
          apply User_create_inr in H as (Hu & _ & -> & ->)
      | H : Student_create _ _ _ _ = (inr _, _) |- _ =>
          apply Student_create_inr in H as (Hs & _ & _ & Hfc & _)
      end.
    simpl in Hfc. rewrite Hu, Hs in Hok. simpl in Hok.
    by rewrite bool_decide_eq_true_2 in Hok.
Qed.

End SuffixDecision.

Section UpdateDecision.
Import Db BulkImportService RowSemantics.
Context {lowering : JsString.Lowering} {validators : Validators}.

(** X26: what [update] writes.  A row whose lowercased email the index
    holds with an account and its profile, its name passing the
    validator and the values fitting their columns, is [updated], and
    the result shows the account under the name of the row and the
    profile under the phone of the row, or under the phone the index
    holds for it when the row has none.  A name that differs from the
    one the index holds is written to every account with the id of the
    account found, a phone that differs to every profile with the id of
    the profile found; nothing else is written. *)
Theorem update_writes_name_and_phone record duplicateInfo db user student :
  emailMap duplicateInfo !! JsString.toLowerCase (r_email record)
    = Some {| ex_user := user; ex_student := Some student |} →
  notEmpty (r_name record) = true →
  fits 255 (r_name record) = true →
  fits_or_null 20 (or_else (r_phone record) (s_phone student)) = true →
  let run := processRecord record duplicateInfo UPDATE (transaction db) in
  let phone := or_else (r_phone record) (s_phone student) in
  let user' := {| u_id := u_id user; u_email := u_email user; u_name := r_name record;
                  u_password_hash := u_password_hash user; u_role := u_role user |} in
  let student' := {| s_id := s_id student; s_user_id := s_user_id student;
                     s_student_code := s_student_code student; s_phone := phone |} in
  run.1 = {| status := Status.updated; record := full user' student' None;
             message := text "Student updated successfully" |}
  ∧ users (commit run.2)
    = (if decide (r_name record = u_name user) then users db
       else (λ u, if decide (u_id u = u_id user)
                  then {| u_id := u_id u; u_email := u_email u;
                          u_name := r_name record;
                          u_password_hash := u_password_hash u; u_role := u_role u |}
                  else u) <$> users db)
  ∧ students (commit run.2)
    = (if decide (phone = s_phone student) then students db
       else (λ s, if decide (s_id s = s_id student)
                  then {| s_id := s_id s; s_user_id := s_user_id s;
                          s_student_code := s_student_code s; s_phone := phone |}
                  else s) <$> students db).
Proof.
  intros He Hname Hfit Hphone run phone user' student'.
  pose proof (processRecord_row record duplicateInfo UPDATE db run.1 run.2
                (surjective_pairing _)) as Hrun.
  destruct Hrun as [? ? ? ? E| |? ? ? ? E| |u s u' db1 s' db2 _ E Hu Hs
                    |u s e db1 _ E Hu|u s u' db1 e db2 _ E Hu Hs|_ _ E| | | | | |];
    try congruence; try discriminate.
  - rewrite He in E. injection E as <- <-.
    apply User_update_name_inr in Hu as (_ & -> & ->).
    apply Student_update_phone_inr in Hs as (-> & ->).
    split; [done|]. unfold commit. simpl. fold phone.
    by repeat case_decide.
  - apply User_update_name_inl in Hu as [_ [Hu|Hu]]; congruence.
  - rewrite He in E. injection E as <- <-.
    apply Student_update_phone_inl in Hs as (_ & _ & Hs). congruence.
Qed.

(** X3: a row adds a whole student or nothing.  On a store that keeps
    the foreign key, a row whose student code passes [notEmpty] leaves,
    once its transaction is committed: the store as it was, when it is
    [skipped] or fails; the store with one more account, of role
    [student], and one more profile, which is the profile of that
    account and has the code of the row, when it is [created] or
    [created_with_suffix]; and the same rows, by their ids, when it is
    [updated]. *)
Theorem row_adds_a_whole_student record duplicateInfo strategy db result transaction' :
  fk_ok db →
  notEmpty (r_student_code record) = true →
  processRecord record duplicateInfo strategy (transaction db) = (result, transaction') →
  match status result with
  | Status.created | Status.created_with_suffix =>
      ∃ user student,
        commit transaction'
        = {| users := users db ++ [user]; students := students db ++ [student] |}
        ∧ u_role user = "student"
        ∧ s_user_id student = u_id user
        ∧ s_student_code student = r_student_code record
        ∧ (u_id user ∉ u_id <$> users db)
        ∧ (u_email user ∉ u_email <$> users db)
        ∧ (s_student_code student ∉ s_student_code <$> students db)
  | Status.updated =>
      u_id <$> users (commit transaction') = u_id <$> users db
      ∧ s_id <$> students (commit transaction') = s_id <$> students db
  | Status.skipped | Status.error => commit transaction' = db
  end.
Proof.
  intros Hfk Hcode Hrun%processRecord_row.
  destruct (status result) eqn:Hst.
  5: by eapply RowOutcome_error_commit.
  all: destruct Hrun; try discriminate Hst; unfold commit; simpl; try done.
  all: repeat match goal with
    | Hu : User_create _ _ _ _ _ = (inr _, _), Hd : User_destroy _ _ = _ |- _ =>
        apply (User_destroy_created _ _ _ _ _ _ _ Hfk Hu) in Hd
    | Hu : User_create _ _ _ _ _ = (inr _, _) |- _ =>
        apply User_create_inr in Hu as (_ & ? & -> & ->)
    | Hs : Student_create _ _ _ _ = (inr _, _) |- _ =>
        apply Student_create_inr in Hs as (_ & _ & _ & ? & -> & ->)
    | Hu : User_update_name _ _ _ = (inr _, _) |- _ =>
        apply User_update_name_inr in Hu as (_ & _ & ->)
    | Hs : Student_update_phone _ _ _ = (inr _, _) |- _ =>
        apply Student_update_phone_inr in Hs as (_ & ->)
    end; simpl in *; try done.
  1,2: eexists _, _; split; [reflexivity|]; simpl; repeat split; try done;
       apply fresh_not_in.
  split; repeat case_decide; simpl; try done.
  all: rewrite <- list_fmap_compose; apply list_fmap_ext; intros i x _; simpl;
    by case_decide.
Qed.

End UpdateDecision.

Section RowExamples2.
Import Db BulkImportService.
Local Existing Instance Sample.lowering.
Local Existing Instance Sample.validators.

Lemma unmatched_row_is_created_witness :
  let run := processRecord Sample.jane_row Sample.no_index UPDATE
               (transaction Sample.empty) in
  status run.1 = Status.created
  ∧ commit run.2 = {| users := [Sample.account 1 "j@x.com" "Jane"];
                      students := [Sample.profile 1 1 "S2"] |}.
Proof.
  intros run.
  pose proof (unmatched_row_is_created UPDATE Sample.jane_row Sample.no_index
                Sample.empty fk_ok_empty eq_refl eq_refl) as Hrow.
  simpl in Hrow. fold run in Hrow. destruct Hrow as [Hres Hdb].
  split; [by rewrite Hres|exact Hdb].
Defined.

Lemma code_only_collision_is_skipped_witness :
  processRecord Sample.jane_with_code_of_john Sample.john_index SUFFIX
    (transaction Sample.john)
  = ({| status := Status.skipped; record := brief Sample.jane_with_code_of_john;
        message := text "Student code already exists" |},
     transaction Sample.john).
Proof.
  apply (code_only_collision_is_skipped SUFFIX Sample.jane_with_code_of_john
           Sample.john_index Sample.john).
  - reflexivity.
  - apply (bool_decide_eq_true_1 _). vm_compute. reflexivity.
Defined.

Lemma suffix_creates_under_first_free_variant_witness :
  let run := processRecord Sample.jane_row Sample.john_index SUFFIX
               (transaction Sample.john_and_j1) in
  status run.1 = Status.created_with_suffix
  ∧ u_email <$> users (commit run.2) = ["j@x.com"; "j_1@x.com"; "j_2@x.com"].
Proof.
  intros run.
  pose proof (suffix_creates_under_first_free_variant Sample.jane_row Sample.john_index
                Sample.john_and_j1 "j" "x.com" 2) as Hrow.
  simpl in Hrow. fold run in Hrow. destruct Hrow as [Hres Hdb].
  - intros s [->| ->%list_elem_of_singleton]%elem_of_cons;
      apply (bool_decide_eq_true_1 _); vm_compute; reflexivity.
  - reflexivity.
  - reflexivity.
  - reflexivity.
  - apply (bool_decide_eq_true_1 _). vm_compute. reflexivity.
  - reflexivity.
  - lia.
  - apply (bool_decide_eq_false_1 _). vm_compute. reflexivity.
  - intros m Hm. assert (m = 1)%nat as -> by lia.
    apply (bool_decide_eq_true_1 _). vm_compute. reflexivity.
  - split; [by rewrite Hres|]. rewrite Hdb. reflexivity.
Defined.

Lemma update_writes_name_and_phone_witness :
  let run := processRecord Sample.john_update Sample.john_index UPDATE
               (transaction Sample.john) in
  status run.1 = Status.updated
  ∧ u_name <$> users (commit run.2) = ["John Updated"]
  ∧ s_phone <$> students (commit run.2) = [Some "999"].
Proof.
  intros run.
  destruct (update_writes_name_and_phone Sample.john_update Sample.john_index
              Sample.john (Sample.account 1 "j@x.com" "John") (Sample.profile 1 1 "S1"))
    as (Hres & Husers & Hstudents).
  - vm_compute. reflexivity.
  - reflexivity.
  - reflexivity.
  - reflexivity.
  - fold run in Hres, Husers, Hstudents.
    split; [by rewrite Hres|]. split; [by rewrite Husers|by rewrite Hstudents].
Defined.

Lemma row_adds_a_whole_student_witness :
  let run := processRecord Sample.jane_row Sample.john_index SUFFIX
               (transaction Sample.john) in
  status run.1 = Status.created_with_suffix
  ∧ ∃ user student,
      commit run.2 = {| users := users Sample.john ++ [user];
                        students := students Sample.john ++ [student] |}
      ∧ s_user_id student = u_id user.
Proof.
  intros run.
  assert (status run.1 = Status.created_with_suffix) as Hst by (vm_compute; reflexivity).
  split; [exact Hst|].
  pose proof (row_adds_a_whole_student Sample.jane_row Sample.john_index SUFFIX
                Sample.john run.1 run.2 fk_ok_john eq_refl (surjective_pairing _))
    as Hrow.
  rewrite Hst in Hrow. destruct Hrow as (user & student & Hdb & _ & Hid & _).
  exists user, student. split; [exact Hdb|exact Hid].
Defined.

End RowExamples2.

(** ** The windows *)

Section Windows.
Import BulkImportService.

Lemma slices_lookup fuel : ∀ records i,
  (length records ≤ fuel)%nat →
  slices fuel records !! i
  = if decide (i * BATCH_SIZE < length records)%nat
    then Some (take BATCH_SIZE (drop (i * BATCH_SIZE) records)) else None.
Proof.
  induction fuel as [|fuel IH]; intros records i Hlen.
  - destruct records; [|simpl in Hlen; lia].
    rewrite decide_False by (simpl; lia). done.
  - destruct records as [|r records].
    { rewrite decide_False by (simpl; lia). done. }
    change (slices (S fuel) (r :: records))
      with (take BATCH_SIZE (r :: records)
            :: slices fuel (drop BATCH_SIZE (r :: records))).
    destruct i as [|i].
    + rewrite decide_True by (simpl; lia). done.
    + rewrite lookup_cons, IH by (rewrite length_drop; cbn [length] in *;
                                  unfold BATCH_SIZE; lia).
      rewrite length_drop, drop_drop.
      replace (BATCH_SIZE + i * BATCH_SIZE)%nat with (S i * BATCH_SIZE)%nat by lia.
      destruct (decide (i * BATCH_SIZE < length (r :: records) - BATCH_SIZE)%nat);
        [rewrite decide_True by lia | rewrite decide_False by lia]; done.
Qed.

(** X7: the windows the outer loop visits are the consecutive slices of
    [BATCH_SIZE] rows: window [i] is [records.slice(i * 100, i * 100 +
    100)], every window holds at least one row and at most 100, and the
    windows in order make up the rows. *)
Theorem windows_are_the_slices records :
  concat (slices (length records) records) = records
  ∧ (∀ i window,
       slices (length records) records !! i = Some window →
       window = take BATCH_SIZE (drop (i * BATCH_SIZE) records)
       ∧ (1 ≤ length window ≤ BATCH_SIZE)%nat)
  ∧ (∀ i, (i * BATCH_SIZE < length records)%nat →
          is_Some (slices (length records) records !! i)).
Proof.
  split; [by apply slices_concat|]. split.
  - intros i window. rewrite slices_lookup by done.
    case_decide as Hi; [|done]. intros [= <-]. split; [done|].
    rewrite length_take, length_drop. unfold BATCH_SIZE in *. lia.
  - intros i Hi. rewrite slices_lookup by done. rewrite decide_True by done. eauto.
Qed.

End Windows.

(** ** The decision on a row, in terms of the store *)

(** ** Reading and validating the file *)

Section CsvFileFacts.
Import CsvFile.

Lemma handle_settled p event :
  promise p ≠ Pending →
  promise (handle p event) = promise p.
Proof.
  intros Hp. destruct event as [headers|row|message|]; simpl; [|done| |].
  - case_bool_decide; [|done]. unfold reject.
    destruct (promise p) eqn:E; simpl; congruence.
  - unfold reject. destruct (promise p) eqn:E; simpl; congruence.
  - unfold reject, resolve.
    destruct (Nat.eqb _ _), (promise p) eqn:E; simpl; congruence.
Qed.

Lemma foldl_handle_settled events : ∀ p,
  promise p ≠ Pending →
  promise (foldl handle p events) = promise p.
Proof.
  induction events as [|event events IH]; intros p Hp; simpl; [done|].
  rewrite IH; rewrite handle_settled; done.
Qed.

Lemma parseCSV_missing headers events :
  (∃ col, col ∈ REQUIRED_COLUMNS ∧ col ∉ headers) →
  parseCSV (on_headers headers :: events)
  = Some (inl ("Missing required columns: "
               +:+ join ", " (filter (λ col, col ∉ headers) REQUIRED_COLUMNS))).
Proof.
  intros (col & Hreq & Hmiss). unfold parseCSV. cbn [foldl handle].
  assert (col ∈ filter (λ col, col ∉ headers) REQUIRED_COLUMNS) as Hin
    by (by apply list_elem_of_filter).
  rewrite bool_decide_eq_true_2
    by (destruct (filter _ REQUIRED_COLUMNS); [by apply elem_of_nil in Hin | simpl; lia]).
  rewrite foldl_handle_settled; done.
Qed.

(** X11: a header line that lacks a required column rejects the file,
    whatever the stream emits afterwards, with a message that names the
    missing ones among [name], [email], [student_code], in that order,
    separated by a comma and a space. *)
Theorem missing_columns_reject_the_file headers events :
  (∃ col, col ∈ REQUIRED_COLUMNS ∧ col ∉ headers) →
  parseCSV (on_headers headers :: events)
  = Some (inl ("Missing required columns: "
               +:+ join ", " (filter (λ col, col ∉ headers) REQUIRED_COLUMNS))).
Proof. apply parseCSV_missing. Qed.

Lemma missing_columns_reject_the_file_witness :
  parseCSV [on_headers ["name"; "phone"]; on_data ∅; on_end]
  = Some (inl "Missing required columns: email, student_code").
Proof.
  apply (missing_columns_reject_the_file ["name"; "phone"] [on_data ∅; on_end]).
  exists "email". split; apply (bool_decide_unpack _); vm_compute; exact I.
Defined.

Lemma filteredRow_lookup row col :
  filteredRow row !! col = if decide (col ∈ ALL_COLUMNS) then row !! col else None.
Proof.
  unfold filteredRow.
  assert (∀ cols (filtered : gmap string string),
            foldl (λ (filtered : gmap string string) col,
                     match row !! col with
                     | Some cell => <[col := cell]> filtered
                     | None => filtered
                     end) filtered cols !! col
            = match (if decide (col ∈ cols) then row !! col else None) with
              | Some cell => Some cell
              | None => filtered !! col
              end) as H.
  { induction cols as [|c cols IH]; intros filtered; cbn [foldl].
    - rewrite decide_False; [done | apply not_elem_of_nil].
    - rewrite IH. destruct (decide (col ∈ cols)) as [Hin|Hin].
      + rewrite (decide_True (P := col ∈ c :: cols)) by (by right).
        destruct (row !! col) eqn:E; [done|].
        destruct (row !! c) eqn:E'; [|done].
        rewrite lookup_insert_ne; [done | congruence].
      + destruct (decide (c = col)) as [->|Hne].
        * rewrite (decide_True (P := col ∈ col :: cols)) by left.
          destruct (row !! col) eqn:E; [by rewrite lookup_insert_eq | done].
        * rewrite (decide_False (P := col ∈ c :: cols))
            by (intros [?|?]%elem_of_cons; congruence).
          destruct (row !! c); [by rewrite lookup_insert_ne | done]. }
  rewrite H, lookup_empty. by destruct (decide _), (row !! col).
Qed.


Lemma foldl_handle_data rows : ∀ p,
  foldl handle p (on_data <$> rows)
  = {| results := results p
                  ++ imap (λ i row, {| fields := filteredRow row;
                                       _rowNumber := S (rowNumber p + i) |}) rows;
       rowNumber := rowNumber p + length rows;
       promise := promise p |}.
Proof.
  induction rows as [|row rows IH]; intros p.
  - simpl. rewrite app_nil_r, Nat.add_0_r. by destruct p.
  - rewrite fmap_cons. cbn [foldl]. rewrite IH. simpl.
    rewrite <- app_assoc, Nat.add_0_r. f_equal; [|lia]. do 2 f_equal.
    apply imap_ext. intros i x _. simpl. do 2 f_equal. lia.
Qed.

Lemma parseCSV_read headers rows :
  (∀ col, col ∈ REQUIRED_COLUMNS → col ∈ headers) →
  parseCSV (read headers rows)
  = match rows with
    | [] => Some (inl "CSV file is empty or contains no valid data")
    | _ :: _ => Some (inr (imap (λ i row, {| fields := filteredRow row;
                                             _rowNumber := S i |}) rows))
    end.
Proof.
  intros Hreq.
  assert (filter (λ col, col ∉ headers) REQUIRED_COLUMNS = []) as Hnone.
  { assert (∀ cols, (∀ col, col ∈ cols → col ∈ headers) →
                    filter (λ col, col ∉ headers) cols = []) as H.
    { induction cols as [|c cols IH]; intros Hall; [done|].
      rewrite filter_cons_False by (intros Hc; apply Hc, Hall; left).
      apply IH. intros col Hcol. apply Hall. by right. }
    by apply H. }
  assert (foldl handle {| results := []; rowNumber := 0; promise := Pending |}
            (read headers rows)
          = handle {| results := imap (λ i row, {| fields := filteredRow row;
                                                   _rowNumber := S i |}) rows;
                      rowNumber := length rows; promise := Pending |} on_end) as Hst.
  { unfold read. cbn [foldl]. unfold handle at 2. rewrite Hnone. simpl bool_decide.
    cbv iota. by rewrite foldl_app, foldl_handle_data. }
  unfold parseCSV. rewrite Hst. simpl. rewrite length_imap.
  by destruct rows.
Qed.

(** X12: a file with the required columns that is read to its end
    resolves with its rows in order, numbered from 1 (the header line
    is not counted), each reduced to the five known columns, a cell
    that the row has being kept as it is; a file without rows is
    rejected as empty. *)
Theorem file_rows_are_numbered headers rows :
  (∀ col, col ∈ REQUIRED_COLUMNS → col ∈ headers) →
  (rows = [] →
   parseCSV (read headers rows)
   = Some (inl "CSV file is empty or contains no valid data"))
  ∧ (rows ≠ [] →
     ∃ parsed,
       parseCSV (read headers rows) = Some (inr parsed)
       ∧ _rowNumber <$> parsed = seq 1 (length rows)
       ∧ Forall2 (λ row p, ∀ col, fields p !! col
                                  = if decide (col ∈ ALL_COLUMNS) then row !! col
                                    else None) rows parsed).
Proof.
  intros Hreq. rewrite (parseCSV_read _ _ Hreq). split; [by intros ->|].
  intros Hrows. destruct rows as [|row rows]; [done|]. eexists. split; [done|]. split.
  - apply list_eq. intros i. rewrite list_lookup_fmap, list_lookup_imap.
    destruct ((row :: rows) !! i) eqn:E.
    + apply lookup_lt_Some in E. by rewrite lookup_seq_lt.
    + apply lookup_ge_None in E. by rewrite lookup_seq_ge.
  - apply Forall2_same_length_lookup. split; [by rewrite length_imap|].
    intros i x p Hx. rewrite list_lookup_imap, Hx. intros [= <-]. simpl.
    intros col. apply filteredRow_lookup.
Qed.

Lemma file_rows_are_numbered_witness :
  ∃ parsed,
    parseCSV (read ["name"; "email"; "student_code"; "note"]
                [{[ "name" := "Ann"; "email" := "a@x.com"; "student_code" := "S1";
                    "note" := "new" ]}])
    = Some (inr parsed)
    ∧ _rowNumber <$> parsed = [1%nat].
Proof.
  destruct (file_rows_are_numbered ["name"; "email"; "student_code"; "note"]
              [{[ "name" := "Ann"; "email" := "a@x.com"; "student_code" := "S1";
                  "note" := "new" ]}]) as [_ H].
  - apply Forall_forall. apply (bool_decide_unpack _). vm_compute. exact I.
  - destruct H as (parsed & Hparsed & Hnum & _); [done|].
    exists parsed. split; [exact Hparsed | exact Hnum].
Defined.

Section ValidationFacts.
Context (csvStudentSchema : gmap string string → list FieldError + Value).

Lemma foldl_validateRow records : ∀ acc,
  foldl (validateRow csvStudentSchema) acc records
  = (acc.1 ++ omap (λ r, match csvStudentSchema (fields r) with
                         | inr value => Some (with_rowNumber value (_rowNumber r))
                         | inl _ => None
                         end) records,
     acc.2 ++ omap (λ r, match csvStudentSchema (fields r) with
                         | inl details => Some (Invalid details (_rowNumber r) (fields r))
                         | inr _ => None
                         end) records).
Proof.
  induction records as [|r records IH]; intros [valid invalid]; simpl.
  - by rewrite !app_nil_r.
  - rewrite IH. unfold validateRow, validateRecord.
    destruct (csvStudentSchema (fields r)); simpl; by rewrite <- ?app_assoc.
Qed.

(** X13: [validateRecords] puts every row in exactly one of its two
    lists: the rows the schema accepts in [validRecords], as validated
    and under their row numbers, the others in [invalidRecords] with
    the error details, their row numbers and the row as read; both
    lists keep the order of the file, and the counts add up to
    [totalRecords], the number of rows. *)
Theorem validateRecords_partitions records :
  validRecords (validateRecords csvStudentSchema records)
  = omap (λ r, match csvStudentSchema (fields r) with
               | inr value => Some (with_rowNumber value (_rowNumber r))
               | inl _ => None
               end) records
  ∧ invalidRecords (validateRecords csvStudentSchema records)
    = omap (λ r, match csvStudentSchema (fields r) with
                 | inl details => Some (Invalid details (_rowNumber r) (fields r))
                 | inr _ => None
                 end) records
  ∧ totalRecords (validateRecords csvStudentSchema records) = length records
  ∧ validCount (validateRecords csvStudentSchema records)
    = length (validRecords (validateRecords csvStudentSchema records))
  ∧ invalidCount (validateRecords csvStudentSchema records)
    = length (invalidRecords (validateRecords csvStudentSchema records))
  ∧ (validCount (validateRecords csvStudentSchema records)
     + invalidCount (validateRecords csvStudentSchema records)
     = totalRecords (validateRecords csvStudentSchema records))%nat.
Proof.
  unfold validateRecords. rewrite foldl_validateRow. simpl.
  repeat split; try done.
  induction records as [|r records IH]; csimpl; [done|].
  destruct (csvStudentSchema (fields r)); csimpl; lia.
Qed.

End ValidationFacts.

End CsvFileFacts.

(** ** From the file to the precheck *)

Section PrecheckFacts.
Import CsvService InternalDuplicateSpec.
Context {lowering : JsString.Lowering}.

Lemma firstSeenAt_None_keys key earlier r :
  firstSeenAt key earlier r = None ↔ key r ∉ key <$> earlier.
Proof.
  rewrite firstSeenAt_None. split.
  - intros H (r' & Hk & Hr')%list_elem_of_fmap. by apply (H r').
  - intros H r' Hr' Hk. apply H. rewrite <- Hk. apply list_elem_of_fmap. eauto.
Qed.

Lemma duplicatesOfRow_nil earlier r :
  duplicatesOfRow earlier r = []
  ↔ (normalizedEmail r ∉ normalizedEmail <$> earlier)
    ∧ (r_student_code r ∉ r_student_code <$> earlier).
Proof.
  rewrite <- !firstSeenAt_None_keys. unfold duplicatesOfRow.
  destruct (firstSeenAt normalizedEmail earlier r),
           (firstSeenAt r_student_code earlier r); simpl; split; try done.
  all: by intros [? ?].
Qed.

Lemma keys_snoc_fresh {A} (key : A → string) (earlier : list A) (r : A) (rest : list A) :
  (key r ∉ key <$> earlier)
  ∧ (NoDup (key <$> rest) ∧ ∀ r', r' ∈ rest → key r' ∉ key <$> earlier ++ [r])
  ↔ NoDup (key <$> r :: rest) ∧ ∀ r', r' ∈ r :: rest → key r' ∉ key <$> earlier.
Proof.
  rewrite fmap_cons, NoDup_cons. split.
  - intros (Hr & Hnd & Hrest). split; [split; [|done]|].
    + intros (r' & Hk & Hr')%list_elem_of_fmap. apply (Hrest r' Hr').
      rewrite fmap_app. apply elem_of_app. right. rewrite <- Hk. left.
    + intros r' [->|Hr']%elem_of_cons; [done|]. intros Hin. apply (Hrest r' Hr').
      rewrite fmap_app. apply elem_of_app. by left.
  - intros ([Hr Hnd] & Hall). split; [apply Hall; left|]. split; [done|].
    intros r' Hr'. rewrite fmap_app. intros [Hin|Hin%list_elem_of_singleton]%elem_of_app.
    + apply (Hall r'); [by right | done].
    + apply Hr. rewrite <- Hin. apply list_elem_of_fmap. eauto.
Qed.

Lemma expectedDuplicates_nil records : ∀ earlier,
  expectedDuplicates earlier records = []
  ↔ (NoDup (normalizedEmail <$> records)
     ∧ ∀ r, r ∈ records → normalizedEmail r ∉ normalizedEmail <$> earlier)
    ∧ (NoDup (r_student_code <$> records)
       ∧ ∀ r, r ∈ records → r_student_code r ∉ r_student_code <$> earlier).
Proof.
  induction records as [|r rest IH]; intros earlier.
  - simpl. split; [intros _|done].
    split; (split; [constructor | by intros ? ?%elem_of_nil]).
  - cbn [expectedDuplicates]. rewrite app_nil, duplicatesOfRow_nil, IH.
    rewrite <- !keys_snoc_fresh. tauto.
Qed.

Lemma hasDuplicates_false records :
  hasDuplicates (detectInternalDuplicates records) = false
  ↔ NoDup ((λ r, JsString.toLowerCase (r_email r)) <$> records)
    ∧ NoDup (r_student_code <$> records).
Proof.
  rewrite <- not_true_iff_false, hasDuplicates_expected.
  split.
  - intros H. apply dec_stable in H. apply expectedDuplicates_nil in H.
    split; apply H.
  - intros [He Hc] Hne. apply Hne. apply expectedDuplicates_nil.
    split; (split; [done | intros r _; by apply not_elem_of_nil]).
Qed.

(** X14: the precheck passes a file exactly when no two of its rows
    have the same lowercased email and no two the same student code. *)
Theorem precheck_passes_distinct_keys records :
  hasDuplicates (detectInternalDuplicates records) = false
  ↔ NoDup ((λ r, JsString.toLowerCase (r_email r)) <$> records)
    ∧ NoDup (r_student_code <$> records).
Proof. apply hasDuplicates_false. Qed.

Lemma expectedDuplicates_earlier records : ∀ earlier,
  StronglySorted lt (r_rowNumber <$> earlier ++ records) →
  Forall (λ d, (duplicateOf d < dup_rowNumber d)%nat) (expectedDuplicates earlier records).
Proof.
  induction records as [|r rest IH]; intros earlier Hsorted; [constructor|].
  cbn [expectedDuplicates]. apply Forall_app. split.
  - assert (∀ key first, firstSeenAt key earlier r = Some first →
                         (first < r_rowNumber r)%nat) as Hfirst.
    { intros key first (i & r' & Hi & _ & <- & _)%firstSeenAt_Some.
      rewrite fmap_app in Hsorted.
      eapply (StronglySorted_app_1_elem_of lt); [exact Hsorted| |].
      - apply list_elem_of_fmap. exists r'. split; [done|].
        by eapply list_elem_of_lookup_2.
      - rewrite fmap_cons. left. }
    unfold duplicatesOfRow.
    destruct (firstSeenAt normalizedEmail earlier r) eqn:E1,
             (firstSeenAt r_student_code earlier r) eqn:E2;
      repeat constructor; simpl; eauto.
  - apply IH. by rewrite <- app_assoc.
Qed.

End PrecheckFacts.

Section Pipeline.
Import CsvService CsvFile.
Context {lowering : JsString.Lowering}.
Context (csvStudentSchema : gmap string string → list FieldError + Value).

Lemma StronglySorted_seq start len : StronglySorted lt (seq start len).
Proof.
  revert start. induction len as [|len IH]; intros start; simpl; constructor.
  - apply IH.
  - apply Forall_seq. lia.
Qed.

Lemma StronglySorted_omap {A B} (f : A → option B) (g : A → nat) (h : B → nat)
    (l : list A) :
  (∀ x y, f x = Some y → h y = g x) →
  StronglySorted lt (g <$> l) → StronglySorted lt (h <$> omap f l).
Proof.
  intros Hf. induction l as [|x l IH]; csimpl; [done|].
  intros [Hl Hx]%StronglySorted_inv. destruct (f x) as [y|] eqn:E; csimpl; [|by apply IH].
  constructor; [by apply IH|]. rewrite (Hf _ _ E).
  apply Forall_forall. intros n (y' & -> & (x' & Hx' & E')%list_elem_of_omap)%list_elem_of_fmap.
  rewrite (Hf _ _ E'). rewrite Forall_forall in Hx. apply Hx.
  apply list_elem_of_fmap. eauto.
Qed.

Lemma parseAndValidateCSV_read headers rows results :
  parseAndValidateCSV csvStudentSchema (read headers rows) = Some (inr results) →
  results
  = validateRecords csvStudentSchema
      (imap (λ i row, {| fields := filteredRow row; _rowNumber := S i |}) rows).
Proof.
  unfold parseAndValidateCSV.
  destruct (decide (Forall (λ col, col ∈ headers) REQUIRED_COLUMNS)) as [Hreq|Hmiss].
  - rewrite Forall_forall in Hreq. rewrite (parseCSV_read _ _ Hreq).
    destruct rows; [done|]. by intros [= <-].
  - apply not_Forall_Exists in Hmiss; [|apply _].
    apply Exists_exists in Hmiss. unfold read.
    by rewrite (parseCSV_missing _ _ Hmiss).
Qed.

(** X15: the valid rows of a file that was read carry their place in
    the file: their row numbers lie between 1 and the number of rows
    and increase strictly along [validRecords], and every internal
    duplicate the precheck reports points from a row to a row before it
    in the file. *)
Theorem valid_rows_keep_their_place headers rows results :
  parseAndValidateCSV csvStudentSchema (read headers rows) = Some (inr results) →
  StronglySorted lt (r_rowNumber <$> validRecords results)
  ∧ Forall (λ n, (1 ≤ n ≤ length rows)%nat) (r_rowNumber <$> validRecords results)
  ∧ Forall (λ d, (duplicateOf d < dup_rowNumber d)%nat)
      (duplicates (detectInternalDuplicates (validRecords results))).
Proof.
  intros ->%parseAndValidateCSV_read.
  assert (∀ records,
            validRecords (validateRecords csvStudentSchema records)
            = omap (λ r, match csvStudentSchema (fields r) with
                         | inr value => Some (with_rowNumber value (_rowNumber r))
                         | inl _ => None
                         end) records) as ->
    by (intros records; unfold validateRecords; by rewrite foldl_validateRow).
  assert (StronglySorted lt
            (r_rowNumber <$>
               omap (λ r, match csvStudentSchema (fields r) with
                          | inr value => Some (with_rowNumber value (_rowNumber r))
                          | inl _ => None
                          end)
                 (imap (λ i row, {| fields := filteredRow row; _rowNumber := S i |})
                    rows))) as Hsorted.
  { apply (StronglySorted_omap _ _rowNumber).
    - intros x y. destruct (csvStudentSchema (fields x)); [done|]. by intros [= <-].
    - rewrite fmap_imap.
      rewrite (imap_ext _ (λ i _, S i)) by done.
      rewrite <- (imap_fmap (λ i (_ : unit), S i) (λ _, ())), imap_seq_0.
      rewrite fmap_S_seq, length_fmap. apply StronglySorted_seq. }
  split; [done|]. split.
  - apply Forall_forall.
    intros n (y & -> & (x & Hx & E)%list_elem_of_omap)%list_elem_of_fmap.
    apply elem_of_lookup_imap in Hx as (i & row & -> & Hi). simpl in E.
    apply lookup_lt_Some in Hi.
    destruct (csvStudentSchema (filteredRow row)); [done|].
    injection E as <-. simpl. lia.
  - rewrite detectInternalDuplicates_expected. by apply expectedDuplicates_earlier.
Qed.

End Pipeline.

Section PipelineExample.
Import CsvService CsvFile.
Local Existing Instance Sample.lowering.

Lemma valid_rows_keep_their_place_witness :
  let results :=
    validateRecords SampleFile.schema
      [{| fields := filteredRow SampleFile.ann; _rowNumber := 1 |};
       {| fields := filteredRow SampleFile.nameless; _rowNumber := 2 |};
       {| fields := filteredRow SampleFile.bob; _rowNumber := 3 |}] in
  r_rowNumber <$> validRecords results = [1; 3]%nat
  ∧ StronglySorted lt (r_rowNumber <$> validRecords results).
Proof.
  intros results. split; [vm_compute; reflexivity|].
  apply (valid_rows_keep_their_place SampleFile.schema SampleFile.headers
           [SampleFile.ann; SampleFile.nameless; SampleFile.bob] results).
  vm_compute. reflexivity.
Defined.

End PipelineExample.
(** ** The handlers of the student controller *)

Section CreateStudent.
Import Db BulkImportService CsvFile Http StudentRequests.
Context {validators : Validators}.

Lemma Student_findOne_None db student_code :
  Student_findOne db student_code = None
  ↔ student_code ∉ s_student_code <$> students db.
Proof.
  unfold Student_findOne.
  rewrite (find_bool_decide_None (λ s, s_student_code s = student_code)). split.
  - intros Hall (s & Hc & Hs)%list_elem_of_fmap. by apply (Hall s).
  - intros Hno s Hs Hc. apply Hno. rewrite <- Hc. apply list_elem_of_fmap. eauto.
Qed.

Lemma find_snoc_fresh {A} (P : A → Prop) `{∀ x, Decision (P x)} (l : list A) (y : A) :
  (∀ x, x ∈ l → ¬ P x) → P y →
  List.find (λ x, bool_decide (P x)) (l ++ [y]) = Some y.
Proof.
  intros Hl Hy. rewrite find_snoc.
  rewrite (proj2 (find_bool_decide_None P l) Hl).
  by rewrite bool_decide_eq_true_2.
Qed.

(** X16: on a store that keeps the foreign key, [createStudent] does
    all or nothing.  It answers 409 [Email already exists] exactly when
    an account is stored under the email as written, else 409 [Student
    code already exists] exactly when a profile has the code, and the
    store is then as it was; otherwise, when the two models accept the
    values, it answers 201 and has added one student account (the
    password, or [student123], hashed at cost 10) and its profile, which
    the answer shows with its account; and when a model refuses them the
    error goes to the error middleware and the store is as it was.  It
    never fails half way. *)
Theorem createStudent_all_or_nothing db value :
  fk_ok db →
  let user :=
    {| u_id := fresh (u_id <$> users db); u_email := v_email value;
       u_name := v_name value;
       u_password_hash :=
         bcrypt_hash (default "student123" (or_else (v_password value) None)) 10;
       u_role := "student" |} in
  let student :=
    {| s_id := fresh (s_id <$> students db); s_user_id := u_id user;
       s_student_code := v_student_code value;
       s_phone := or_else (v_phone value) None |} in
  ∃ e,
    createStudent db value
    = if decide (v_email value ∈ u_email <$> users db)
      then (db, Threw (api_error (conflict "Email already exists" "email" (v_email value))))
      else if decide (v_student_code value ∈ s_student_code <$> students db)
      then (db, Threw (api_error (conflict "Student code already exists" "student_code"
                                    (v_student_code value))))
      else if Accepted.account (v_email value) (v_name value)
              && Accepted.profile (v_student_code value) (or_else (v_phone value) None)
      then ({| users := users db ++ [user]; students := students db ++ [student] |},
            Sent 201 (Some (student, Some user)))
      else (db, Threw (rejection e)).
Proof.
  intros Hfk user student. unfold createStudent.
  destruct (decide (v_email value ∈ u_email <$> users db)) as [He|He].
  { apply User_findOne_Some in He as [u ->]. by exists (new_Error ""). }
  rewrite (proj2 (User_findOne_None db (v_email value)) He).
  destruct (decide (v_student_code value ∈ s_student_code <$> students db)) as [Hc|Hc].
  { destruct (Student_findOne db (v_student_code value)) eqn:E;
      [by exists (new_Error "")|].
    by apply Student_findOne_None in E. }
  rewrite (proj2 (Student_findOne_None db (v_student_code value)) Hc).
  destruct (Accepted.account (v_email value) (v_name value)
            && Accepted.profile (v_student_code value) (or_else (v_phone value) None))
    eqn:Hacc.
  - exists (new_Error "").
    apply andb_true_iff in Hacc as [Hu Hs].
    destruct (create_pair_accepted (v_email value) (v_name value)
                (bcrypt_hash (default "student123" (or_else (v_password value) None)) 10)
                (v_student_code value) (or_else (v_phone value) None) db)
      as [Hcu Hcs]; [done..|].
    unfold mbind, mret, Tx_bind, Tx_ret, transaction.
    rewrite within_transaction, Hcu, within_transaction, Hcs.
    unfold commit. simpl. f_equal. f_equal. unfold Student_findByPk, user_of. simpl.
    rewrite (find_snoc_fresh (λ s, s_id s = fresh (s_id <$> students db))); [|
      intros s Hs' Hid; apply (fresh_not_in (s_id <$> students db)); rewrite <- Hid;
      apply list_elem_of_fmap; eauto | done].
    simpl.
    rewrite (find_snoc_fresh (λ u, u_id u = fresh (u_id <$> users db))); [done|
      intros u Hu' Hid; apply (fresh_not_in (u_id <$> users db)); rewrite <- Hid;
      apply list_elem_of_fmap; eauto | done].
  - destruct (create_pair_refused (v_email value) (v_name value)
                (bcrypt_hash (default "student123" (or_else (v_password value) None)) 10)
                (v_student_code value) (or_else (v_phone value) None) db Hacc)
      as (e & t & -> & <-).
    by exists e.
Qed.

End CreateStudent.

Section CreateStudentExample.
Import Db BulkImportService CsvFile Http StudentRequests.
Local Existing Instance Sample.validators.

Lemma createStudent_all_or_nothing_witness :
  createStudent Sample.john
    {| v_name := "Jane"; v_email := "J@x.com"; v_student_code := "S2";
       v_phone := None; v_password := None |}
  = ({| users := users Sample.john ++ [Sample.account 2 "J@x.com" "Jane"];
        students := students Sample.john ++ [Sample.profile 2 2 "S2"] |},
     Sent 201 (Some (Sample.profile 2 2 "S2", Some (Sample.account 2 "J@x.com" "Jane")))).
Proof.
  destruct (createStudent_all_or_nothing Sample.john
              {| v_name := "Jane"; v_email := "J@x.com"; v_student_code := "S2";
                 v_phone := None; v_password := None |} fk_ok_john) as [e He].
  rewrite He. reflexivity.
Defined.

End CreateStudentExample.

Section Handlers.
Import Db CsvFile Http StudentRequests BulkImportService.
Context {lowering : JsString.Lowering} {validators : Validators}.
Context (csvStudentSchema : gmap string string → list FieldError + Value).

(** X18: [validateCSV] never answers with a preview.  A file that
    [parseAndValidateCSV] fails on is answered 400 [CSV_PARSE_ERROR]
    with its message; for every other file the handler rejects with the
    error of [detectDatabaseDuplicates], which goes to the error
    middleware. *)
Theorem preview_is_never_answered db events :
  validateCSV csvStudentSchema db events
  = match parseAndValidateCSV csvStudentSchema events with
    | None => None
    | Some (inl message) => Some (Threw (api_error (parse_error message)))
    | Some (inr _) =>
        Some (Threw (rejection (SequelizeEagerLoadingError "Student" "student")))
    end
  ∧ ∀ status preview,
      validateCSV csvStudentSchema db events ≠ Some (Sent status preview).
Proof.
  assert (validateCSV csvStudentSchema db events
          = match parseAndValidateCSV csvStudentSchema events with
            | None => None
            | Some (inl message) => Some (Threw (api_error (parse_error message)))
            | Some (inr _) =>
                Some (Threw (rejection
                               (SequelizeEagerLoadingError "Student" "student")))
            end) as Heq.
  { unfold validateCSV.
    destruct (parseAndValidateCSV csvStudentSchema events) as [[message|results]|];
      [done| |done].
    by rewrite detectDatabaseDuplicates_rejects. }
  split; [exact Heq|]. intros status preview. rewrite Heq.
  by destruct (parseAndValidateCSV csvStudentSchema events) as [[message|results]|].
Qed.

(** X20: what a bulk import request comes to, by its file.  A file that
    [parseAndValidateCSV] fails on is answered with the parse error.  A
    file with no valid row is answered 400 [NO_VALID_RECORDS]; a file
    two of whose valid rows share a lowercased email or a student code
    400 [INTERNAL_DUPLICATES] with the report of the precheck; and for
    every other file the handler rejects with the error of the lookup:
    no file is answered with a summary.  The store is as it was in every
    case. *)
Theorem import_request_outcomes db events strategy :
  bulkImport csvStudentSchema db events strategy
  = match parseAndValidateCSV csvStudentSchema events with
    | None => None
    | Some (inl message) => Some (db, inl message)
    | Some (inr results) =>
        let valid := validRecords results in
        Some (db, inr (
          if decide (valid = [])
          then StudentController.ApiError 400 "NO_VALID_RECORDS" []
          else if decide (NoDup ((λ r, JsString.toLowerCase (r_email r)) <$> valid)
                          ∧ NoDup (r_student_code <$> valid))
          then StudentController.Rejected
                 (SequelizeEagerLoadingError "Student" "student")
          else StudentController.ApiError 400 "INTERNAL_DUPLICATES"
                 (CsvService.duplicates (CsvService.detectInternalDuplicates valid))))
    end.
Proof.
  unfold bulkImport.
  destruct (parseAndValidateCSV csvStudentSchema events) as [[message|results]|];
    [done| |done].
  simpl. unfold StudentController.bulkImport.
  destruct (validRecords results) as [|r valid] eqn:Hvalid; [done|].
  rewrite decide_False by done. simpl Nat.eqb. cbv iota.
  destruct (CsvService.hasDuplicates (CsvService.detectInternalDuplicates (r :: valid)))
    eqn:Hdup.
  - rewrite decide_False; [done|].
    intros Hno%hasDuplicates_false. congruence.
  - rewrite decide_True by (by apply hasDuplicates_false).
    by rewrite processBulkImport_cons.
Qed.

End Handlers.

Section HandlerExamples.
Import Db BulkImportService CsvFile Http StudentRequests.
Local Existing Instance Sample.lowering.
Local Existing Instance Sample.validators.

(** Ann's file is read and its row is valid, and the two handlers
    reject. *)
Lemma handlers_reject_a_valid_file :
  validateCSV SampleFile.schema Sample.empty (read SampleFile.headers [SampleFile.ann])
  = Some (Threw (rejection (SequelizeEagerLoadingError "Student" "student")))
  ∧ bulkImport SampleFile.schema Sample.empty
      (read SampleFile.headers [SampleFile.ann]) SKIP
    = Some (Sample.empty,
            inr (StudentController.Rejected
                   (SequelizeEagerLoadingError "Student" "student"))).
Proof. split; vm_compute; reflexivity. Qed.

End HandlerExamples.

(** ** The accounts a row creates, at the login and at the routes *)

Section CreatedAccounts.
Import Db Http AuthService BulkImportService RowSemantics.
Context {lowering : JsString.Lowering} {validators : Validators}.

(** The account of a created row: the last of the store, under an
    email and an id no other account has. *)
Lemma created_account record duplicateInfo strategy db result transaction' :
  processRecord record duplicateInfo strategy (transaction db) = (result, transaction') →
  status result = Status.created ∨ status result = Status.created_with_suffix →
  ∃ user,
    users (commit transaction') = users db ++ [user]
    ∧ u_email user = rec_email (BulkImportService.record result)
    ∧ u_role user = "student"
    ∧ u_password_hash user
      = bcrypt_hash (default "student123" (or_else (r_password record) None)) 10
    ∧ (u_email user ∉ u_email <$> users db)
    ∧ (u_id user ∉ u_id <$> users db).
Proof.
  intros Hrun%processRecord_row Hst.
  destruct Hrun; simpl in Hst; try (destruct Hst; discriminate).
  all: repeat match goal with
    | Hu : User_create _ _ _ _ _ = (inr _, _) |- _ =>
        apply User_create_inr in Hu as (_ & ? & -> & ->)
    | Hs : Student_create _ _ _ _ = (inr _, _) |- _ =>
        apply Student_create_inr in Hs as (_ & _ & _ & _ & -> & ->)
    end; unfold commit; simpl.
  all: eexists; split; [reflexivity|]; simpl; repeat split; try done.
  all: apply fresh_not_in.
Qed.


End CreatedAccounts.

Section Guard.
Import Db BulkImportService Http AuthService Middleware CsvFile StudentRequests.
Context {lowering : JsString.Lowering} {validators : Validators}.
Context (csvStudentSchema : gmap string string → list FieldError + Value).

(** X22: a student whom a row has created cannot import.  Once the
    transaction of a [created] or [created_with_suffix] row is
    committed, a request to the bulk-import route whose token decodes to
    the account the row added is refused by [authorize('instructor')]
    with status 403, whatever the file and the strategy, and the store
    is left as it is. *)
Theorem created_student_cannot_import record duplicateInfo strategy db result
    transaction' events strategy' :
  processRecord record duplicateInfo strategy (transaction db) = (result, transaction') →
  status result = Status.created ∨ status result = Status.created_with_suffix →
  ∃ user,
    users (commit transaction') = users db ++ [user]
    ∧ post_bulk_import csvStudentSchema (commit transaction') (u_id user) events strategy'
      = Some (commit transaction',
              inl (api_error {| statusCode := 403; error_message := "FORBIDDEN";
                                code := "Access denied. Required role: instructor";
                                details := None |})).
Proof.
  intros Hrun Hst.
  destruct (created_account _ _ _ _ _ _ Hrun Hst)
    as (user & Husers & _ & Hrole & _ & _ & Hfree).
  exists user. split; [done|].
  unfold post_bulk_import, authenticate, getUserById, User_findByPk.
  rewrite Husers.
  rewrite (find_snoc_fresh (λ u, u_id u = u_id user)); [|
    intros u Hu Heq; apply Hfree; rewrite <- Heq; by apply list_elem_of_fmap_2 | done].
  unfold authorize, userData. simpl. rewrite Hrole.
  rewrite bool_decide_eq_false_2; [done|].
  by intros [=]%list_elem_of_singleton.
Qed.

End Guard.

Section AccountExamples.
Import Db BulkImportService Http AuthService Middleware CsvFile StudentRequests.
Local Existing Instance Sample.lowering.
Local Existing Instance Sample.validators.


Lemma created_student_cannot_import_witness :
  let run := processRecord Sample.jane_row Sample.john_index SUFFIX
               (transaction Sample.john) in
  ∃ e,
    post_bulk_import SampleFile.schema (commit run.2) 2
      (read SampleFile.headers [SampleFile.bob]) SKIP
    = Some (commit run.2, inl (api_error e))
    ∧ statusCode e = 403%nat.
Proof.
  intros run.
  destruct (created_student_cannot_import SampleFile.schema Sample.jane_row
              Sample.john_index SUFFIX Sample.john run.1 run.2
              (read SampleFile.headers [SampleFile.bob]) SKIP)
    as (user & Husers & Hpost).
  - apply surjective_pairing.
  - right. vm_compute. reflexivity.
  - assert (u_id user = 2%nat) as Hid.
    { assert (users (commit run.2)
              = users Sample.john
                ++ [{| u_id := 2; u_email := "j_1@x.com"; u_name := "Jane";
                       u_password_hash := bcrypt_hash "student123" 10;
                       u_role := "student" |}]) as Hrun by (vm_compute; reflexivity).
      rewrite Hrun in Husers. apply app_inj_1 in Husers as [_ [= <-]]; done. }
    rewrite Hid in Hpost. eexists. split; [exact Hpost|reflexivity].
Defined.

End AccountExamples.

(** ** Enrolling a student in courses *)

Section EnrollFacts.
Import Db Http Enrollments.

Lemma filter_ext_in {A} (P Q : A → Prop) `{∀ x, Decision (P x)} `{∀ x, Decision (Q x)}
    (l : list A) :
  (∀ x, x ∈ l → P x ↔ Q x) → filter P l = filter Q l.
Proof.
  induction l as [|x l IH]; intros Hpq; [done|].
  assert (filter P l = filter Q l) as IH' by (apply IH; intros y Hy; apply Hpq; by right).
  destruct (decide (Q x)) as [Hq|Hq].
  - rewrite !filter_cons_True by (done || (apply Hpq; [left|done])). by rewrite IH'.
  - rewrite !filter_cons_False; [done..|]. intros Hp. apply Hq, Hpq; [left|done].
Qed.

Lemma fmap_ext_in {A B} (f g : A → B) (l : list A) :
  (∀ x, x ∈ l → f x = g x) → f <$> l = g <$> l.
Proof.
  induction l as [|x l IH]; intros Hfg; [done|]. rewrite !fmap_cons.
  rewrite (Hfg x) by left. f_equal. apply IH. intros y Hy. apply Hfg. by right.
Qed.

(** The courses found for a request: as many as the distinct ids of
    the request that are ids of courses. *)
Lemma Course_findAll_ids reg course_ids :
  NoDup (c_id <$> courses reg) →
  NoDup (c_id <$> Course_findAll reg course_ids)
  ∧ ∀ x, x ∈ c_id <$> Course_findAll reg course_ids
         ↔ x ∈ course_ids ∧ x ∈ c_id <$> courses reg.
Proof.
  intros Hnd. unfold Course_findAll. split.
  - eapply sublist_NoDup; [exact Hnd|]. apply fmap_sublist, sublist_filter.
  - intros x. rewrite !list_elem_of_fmap. split.
    + intros (c & -> & [Hin Hc]%list_elem_of_filter). eauto.
    + intros (Hin & c & -> & Hc). exists c. split; [done|]. by apply list_elem_of_filter.
Qed.

Lemma Course_findAll_length reg course_ids :
  NoDup (c_id <$> courses reg) →
  length (Course_findAll reg course_ids) = length course_ids
  ↔ NoDup course_ids ∧ ∀ x, x ∈ course_ids → x ∈ c_id <$> courses reg.
Proof.
  intros Hnd. destruct (Course_findAll_ids reg course_ids Hnd) as [Hfound Hin].
  rewrite <- (length_fmap c_id).
  assert (c_id <$> Course_findAll reg course_ids ⊆+ course_ids) as Hsub.
  { apply NoDup_submseteq; [done|]. intros x Hx. by apply Hin. }
  split.
  - intros Hlen. apply submseteq_length_Permutation in Hsub; [|lia]. split.
    + by rewrite <- Hsub.
    + intros x Hx. rewrite <- Hsub in Hx. by apply Hin.
  - intros [Hids Hall]. apply Nat.le_antisymm; [by apply submseteq_length|].
    apply submseteq_length, NoDup_submseteq; [done|]. intros x Hx. apply Hin. auto.
Qed.

(** X23: a request that names a course that does not exist, or names
    a course twice, enrolls in none.  With the student found and the
    course ids distinct in the table, [enrollStudent] answers 404 with
    ['Courses not found: '] followed by the requested ids that are ids
    of no course, joined by [', '], and leaves the store as it was; when
    every requested course exists and one is only named twice, the list
    in the message is empty. *)
Theorem enrollStudent_rejects_the_whole_request reg id course_ids :
  is_Some (Student_findByPk reg id) →
  NoDup (c_id <$> courses reg) →
  ¬ (NoDup course_ids ∧ ∀ x, x ∈ course_ids → x ∈ c_id <$> courses reg) →
  enrollStudent reg id course_ids
  = (reg, Threw (api_error (notFound
       ("Courses not found: "
        +:+ CsvFile.join ", "
              (filter (λ x, x ∉ c_id <$> courses reg) course_ids))))).
Proof.
  intros [s Hs] Hnd Hbad. unfold enrollStudent. rewrite Hs.
  destruct (Nat.eqb_spec (length (Course_findAll reg course_ids)) (length course_ids))
    as [Hlen|Hlen].
  { by apply Course_findAll_length in Hlen. }
  simpl.
  rewrite (filter_ext_in (λ x, x ∉ c_id <$> Course_findAll reg course_ids)
             (λ x, x ∉ c_id <$> courses reg) course_ids); [done|].
  intros x Hx.
  destruct (Course_findAll_ids reg course_ids Hnd) as [_ Hin]. rewrite Hin. tauto.
Qed.

Lemma enrollStudent_rejects_the_whole_request_witness :
  let reg :=
    {| people := Sample.john;
       courses := [{| c_id := "c1"; c_name := "Logic"; c_code := "L1" |}];
       course_enrollments := [] |} in
  enrollStudent reg 1 ["c1"; "c1"]
  = (reg, Threw (api_error (notFound "Courses not found: "))).
Proof.
  intros reg.
  apply (enrollStudent_rejects_the_whole_request reg 1 ["c1"; "c1"]).
  - by eexists.
  - apply NoDup_singleton.
  - intros [Hnd _]. apply NoDup_cons in Hnd as [Hnot _]. apply Hnot. left.
Defined.

Lemma CourseEnrollment_findOne_None reg id course_id :
  CourseEnrollment_findOne reg id course_id = None
  ↔ (course_id, id) ∉ enrolled_pairs reg.
Proof.
  unfold CourseEnrollment_findOne, enrolled_pairs.
  rewrite (find_bool_decide_None
             (λ e, ce_student_id e = id ∧ ce_course_id e = course_id)). split.
  - intros H (e & [= -> ->] & He)%list_elem_of_fmap. by apply (H e).
  - intros H e He [<- <-]. apply H. apply list_elem_of_fmap. eauto.
Qed.

(** The loop: it enrolls in the courses the student is not enrolled in,
    in the order of the request, and never rejects. *)
Lemma enrollEach_enrolls id : ∀ course_ids working results,
  (id ∈ s_id <$> students (people working)) →
  NoDup course_ids →
  (∀ x, x ∈ course_ids → x ∈ c_id <$> courses working) →
  ∃ added,
    enrollEach id course_ids working results
    = inr ({| people := people working; courses := courses working;
              course_enrollments := course_enrollments working ++ added |},
           results ++ (enrollmentResult working id <$> course_ids))
    ∧ ce_course_id <$> added
      = filter (λ x, (x, id) ∉ enrolled_pairs working) course_ids
    ∧ Forall (λ e, ce_student_id e = id) added.
Proof.
  induction course_ids as [|x rest IH]; intros working results Hid Hnd Hall.
  - exists []. simpl. rewrite !app_nil_r. by destruct working.
  - apply NoDup_cons in Hnd as [Hx Hnd]. cbn [enrollEach].
    assert (∀ y, y ∈ rest → y ∈ c_id <$> courses working) as Hall'
      by (intros y Hy; apply Hall; by right).
    rewrite fmap_cons. unfold enrollmentResult at 1.
    destruct (decide ((x, id) ∈ enrolled_pairs working)) as [Hin|Hin].
    + destruct (CourseEnrollment_findOne working id x) eqn:E;
        [|by apply CourseEnrollment_findOne_None in E].
      destruct (IH working
                  (results ++ [{| er_course_id := x; er_status := already_enrolled;
                                  er_message := "Student is already enrolled in this course" |}])
                  Hid Hnd Hall') as (added & -> & Hadded & Hstudent).
      exists added. rewrite <- app_assoc. split; [done|]. split; [|done].
      rewrite filter_cons_False by tauto. done.
    + rewrite (proj2 (CourseEnrollment_findOne_None working id x) Hin).
      unfold CourseEnrollment_create.
      rewrite decide_False by (intros [?|Hc]; [done|]; apply Hc, Hall; left).
      rewrite decide_False by done.
      set (e := {| ce_id := fresh (ce_id <$> course_enrollments working);
                   ce_course_id := x; ce_student_id := id |}).
      set (working' := {| people := people working; courses := courses working;
                          course_enrollments := course_enrollments working ++ [e] |}).
      assert (∀ y, y ∈ rest →
                   (y, id) ∈ enrolled_pairs working' ↔ (y, id) ∈ enrolled_pairs working)
        as Hsame.
      { intros y Hy. unfold enrolled_pairs, working'. simpl.
        rewrite fmap_app, elem_of_app. simpl. rewrite list_elem_of_singleton.
        split; [|by left]. intros [?|[= ->]]; [done|]. by destruct Hx. }
      destruct (IH working'
                  (results ++ [{| er_course_id := x; er_status := enrolled;
                                  er_message := "Successfully enrolled" |}])
                  Hid Hnd Hall') as (added & -> & Hadded & Hstudent).
      exists (e :: added). rewrite <- !app_assoc. csimpl. split; [|split].
      * rewrite (fmap_ext_in (enrollmentResult working' id)
                   (enrollmentResult working id) rest);
          [by rewrite <- (app_assoc _ [e] added)|].
        intros y Hy. unfold enrollmentResult.
        destruct (decide ((y, id) ∈ enrolled_pairs working')) as [Hy'|Hy'];
          [rewrite decide_True | rewrite decide_False]; try done; by rewrite <- Hsame.
      * rewrite filter_cons_True by done. f_equal. rewrite Hadded.
        apply filter_ext_in. intros y Hy. by rewrite Hsame.
      * by constructor.
Qed.

(** X24: a request for courses that exist, each named once, enrolls
    the student exactly where it was not enrolled.  With the keys of
    the tables in force and the student found, [enrollStudent] answers
    200; it adds one enrollment of this student for each requested
    course the student was not enrolled in, in the order of the request,
    and nothing else changes; the results list the requested courses in
    order, [already_enrolled] for those the student was enrolled in and
    [enrolled] for the others; the answer shows the student enrolled in
    its earlier courses and the requested ones; and the same request
    made again changes nothing and reports every course
    [already_enrolled]. *)
Theorem enrollStudent_enrolls_once reg id course_ids :
  registry_ok reg →
  is_Some (Student_findByPk reg id) →
  NoDup course_ids →
  (∀ x, x ∈ course_ids → x ∈ c_id <$> courses reg) →
  ∃ added answer,
    enrollStudent reg id course_ids
    = ({| people := people reg; courses := courses reg;
          course_enrollments := course_enrollments reg ++ added |},
       Sent 200 answer)
    ∧ ce_course_id <$> added
      = filter (λ x, (x, id) ∉ enrolled_pairs reg) course_ids
    ∧ Forall (λ e, ce_student_id e = id) added
    ∧ enrollmentResults answer = enrollmentResult reg id <$> course_ids
    ∧ (∀ x, x ∈ enrolledCourses answer
            ↔ (x, id) ∈ enrolled_pairs reg ∨ x ∈ course_ids)
    ∧ ∃ again,
        enrollStudent
          {| people := people reg; courses := courses reg;
             course_enrollments := course_enrollments reg ++ added |} id course_ids
        = ({| people := people reg; courses := courses reg;
              course_enrollments := course_enrollments reg ++ added |},
           Sent 200 again)
        ∧ Forall (λ r, er_status r = already_enrolled) (enrollmentResults again).
Proof.
  intros [Hpk Hfk] [s Hs] Hnd Hall.
  assert (id ∈ s_id <$> students (people reg)) as Hid.
  { apply (find_bool_decide_Some (λ s, s_id s = id)) in Hs as [Hin <-].
    apply list_elem_of_fmap. eauto. }
  destruct (enrollEach_enrolls id course_ids reg [] Hid Hnd Hall)
    as (added & Hloop & Hadded & Hstudent).
  set (reg' := {| people := people reg; courses := courses reg;
                  course_enrollments := course_enrollments reg ++ added |}).
  assert (∀ x, ((x, id) ∈ enrolled_pairs reg')
               ↔ ((x, id) ∈ enrolled_pairs reg)
                 ∨ ((x, id) ∉ enrolled_pairs reg) ∧ x ∈ course_ids)
    as Hpairs.
  { intros x. unfold enrolled_pairs, reg'. simpl. rewrite fmap_app, elem_of_app.
    apply or_iff_compat_l.
    rewrite <- (list_elem_of_filter (λ x, (x, id) ∉ enrolled_pairs reg)), <- Hadded.
    rewrite !list_elem_of_fmap. split.
    - intros (e & [= -> _] & He). eauto.
    - intros (e & -> & He). exists e. split; [|done].
      rewrite Forall_forall in Hstudent. by rewrite (Hstudent e He). }
  assert (∀ x, x ∈ course_ids → (x, id) ∈ enrolled_pairs reg') as Hnow.
  { intros x Hx. apply Hpairs.
    destruct (decide ((x, id) ∈ enrolled_pairs reg)); [by left | right; by split]. }
  exists added. eexists. split; [|split; [exact Hadded|split; [exact Hstudent|]]].
  - unfold enrollStudent. rewrite Hs.
    rewrite (proj2 (Course_findAll_length reg course_ids Hpk)) by done.
    rewrite Nat.eqb_refl. simpl. rewrite Hloop. reflexivity.
  - simpl. split; [done|]. split.
    + intros x. rewrite elem_of_list_to_set, list_elem_of_fmap. split.
      * intros (c & -> & [Hin _]%list_elem_of_filter). apply Hpairs in Hin. tauto.
      * intros Hx.
        assert ((x, id) ∈ enrolled_pairs reg') as Hin.
        { destruct Hx as [?|?]; [apply Hpairs; by left | by apply Hnow]. }
        assert (x ∈ c_id <$> courses reg) as (c & -> & Hc)%list_elem_of_fmap.
        { destruct Hx as [(e & [= -> _] & He)%list_elem_of_fmap|?]; [|by apply Hall].
          by apply Hfk. }
        exists c. split; [done|]. by apply list_elem_of_filter.
    + destruct (enrollEach_enrolls id course_ids reg' [] Hid Hnd Hall)
        as (added' & Hloop' & Hadded' & _).
      assert (added' = []) as ->.
      { apply fmap_nil_inv with (f := ce_course_id). rewrite Hadded'.
        rewrite (filter_ext_in _ (λ _, False)).
        - generalize course_ids. intros l.
          induction l as [|y l IHl]; [done|].
          rewrite filter_cons_False by (intros []). exact IHl.
        - intros x Hx. split; [|done]. intros H. by apply H, Hnow. }
      eexists. split.
      * assert (Student_findByPk reg' id = Some s) as Hs' by exact Hs.
        fold reg'. unfold enrollStudent. rewrite Hs'.
        rewrite (proj2 (Course_findAll_length reg' course_ids Hpk)) by done.
        rewrite Nat.eqb_refl. simpl. rewrite Hloop', app_nil_r. reflexivity.
      * simpl. apply Forall_fmap, Forall_forall. intros x Hx. unfold compose.
        unfold enrollmentResult. by rewrite decide_True by by apply Hnow.
Qed.

Lemma enrollStudent_enrolls_once_witness :
  let reg :=
    {| people := Sample.john;
       courses := [{| c_id := "c1"; c_name := "Logic"; c_code := "L1" |};
                   {| c_id := "c2"; c_name := "Sets"; c_code := "S1" |}];
       course_enrollments :=
         [{| ce_id := 1; ce_course_id := "c1"; ce_student_id := 1 |}] |} in
  ∃ added answer,
    enrollStudent reg 1 ["c1"; "c2"]
    = ({| people := people reg; courses := courses reg;
          course_enrollments := course_enrollments reg ++ added |},
       Sent 200 answer)
    ∧ ce_course_id <$> added = ["c2"]
    ∧ er_status <$> enrollmentResults answer = [already_enrolled; enrolled].
Proof.
  intros reg.
  destruct (enrollStudent_enrolls_once reg 1 ["c1"; "c2"])
    as (added & answer & Hrun & Hadded & _ & Hresults & _).
  - split; [apply (bool_decide_unpack _); vm_compute; exact I|].
    apply Forall_forall. apply (bool_decide_unpack _). vm_compute. exact I.
  - by eexists.
  - apply (bool_decide_unpack _). vm_compute. exact I.
  - apply Forall_forall. apply (bool_decide_unpack _). vm_compute. exact I.
  - exists added, answer. split; [exact Hrun|]. split; [exact Hadded|].
    rewrite Hresults. vm_compute. reflexivity.
Defined.

End EnrollFacts.

(** ** The variants of an address *)

Section SuffixEdges.
Import JsString BulkImportService.

Lemma split_at_each (sep : ascii) (l d rest : string) :
  contains sep l = false → contains sep d = false →
  ∃ pieces, split sep (l +:+ String sep (d +:+ String sep rest)) = l :: d :: pieces.
Proof.
  intros Hl Hd. rewrite (split_at_first _ _ _ Hl), (split_at_first _ _ _ Hd). eauto.
Qed.

(** X28: [generateEmailWithSuffix] outside the addresses the schema
    lets through.  Of an email with more than one [@] it keeps the
    first two pieces only: [l@d@rest] gives [l_n@d]; of a text without
    [@] it makes [text_n@undefined]. *)
Theorem generateEmailWithSuffix_edges (l d rest : string) (n : nat) :
  contains "@" l = false →
  contains "@" d = false →
  generateEmailWithSuffix (l +:+ "@" +:+ d +:+ "@" +:+ rest) n
  = l +:+ "_" +:+ pretty n +:+ "@" +:+ d
  ∧ generateEmailWithSuffix l n = l +:+ "_" +:+ pretty n +:+ "@undefined".
Proof.
  intros Hl Hd. unfold generateEmailWithSuffix. split.
  - change ("@" +:+ d +:+ "@" +:+ rest) with (String "@" (d +:+ String "@" rest)).
    destruct (split_at_each "@" l d rest Hl Hd) as [pieces ->]. done.
  - rewrite (split_without _ _ Hl). done.
Qed.

Lemma generateEmailWithSuffix_edges_witness :
  generateEmailWithSuffix "a@b@c" 3 = "a_3@b"
  ∧ generateEmailWithSuffix "a" 3 = "a_3@undefined".
Proof. exact (generateEmailWithSuffix_edges "a" "b" "c" 3 eq_refl eq_refl). Defined.

End SuffixEdges.
